(** * trudesk: the ticket API controller (src/controllers/api/v1/tickets.js)

    A shallow embedding of the request handlers of [api_tickets] and of the
    parts of their collaborators they rely on, followed by the properties of
    the handlers.

    Conventions.
    - A JavaScript value that may be [undefined] is an [option]: [None] is
      [undefined].  JSON values are [json]; numbers are restricted to
      integers and strings to sequences of ASCII code units.
    - A handler is a computation in the monad [M]: it threads the [World]
      (ticket store, log of store operations, emitted events, the response
      sent so far, files on disk) and either returns or throws.
    - The asynchronous callbacks of the source run to completion one after
      the other; a handler is modelled as the sequential composition of its
      callbacks. *)

From stdpp Require Import base option strings list gmap.
From Stdlib Require Import ZArith Ascii String.

Local Open Scope string_scope.
Local Open Scope Z_scope.

(** ** JavaScript values *)

#[local] Set Warnings "-register-all".

Inductive json : Type :=
  | JNull
  | JBool (b : bool)
  | JNum (n : Z)
  | JStr (s : string)
  | JArr (l : list json)
  | JObj (m : gmap string json).

(** [None] is [undefined]. *)
Definition value : Type := option json.

(** A reference to a document of the store (a Mongo ObjectId, as its text). *)
Abbreviation ObjectId := string (only parsing).

(** Exceptions raised by the JavaScript runtime. *)
Inductive Exn : Type :=
  | TypeError (msg : string)
  | SystemError (code : string).      (* an [Error] of [fs], with its [code] *)

(** underscore: [_.isUndefined], [_.isNull], [_.isObject]. *)
Definition isUndefined {A} (v : option A) : bool :=
  match v with None => true | Some _ => false end.

Definition isNull (v : value) : bool :=
  match v with Some JNull => true | _ => false end.

(** [_.isObject(obj)]: [type === 'function' || type === 'object' && !!obj];
    arrays are objects, [null] is not. *)
Definition isObject (v : value) : bool :=
  match v with
  | Some (JObj _) | Some (JArr _) => true
  | _ => false
  end.

(** JavaScript truthiness of a defined JSON value. *)
Definition truthy (j : json) : bool :=
  match j with
  | JNull => false
  | JBool b => b
  | JNum n => negb (n =? 0)
  | JStr s => negb (String.eqb s "")
  | JArr _ | JObj _ => true
  end.

(** Property read [v.k] for the keys the handlers use (none of them is a
    property of a primitive or of an array): reading a property of
    [undefined] or [null] throws, a primitive or an array has no such
    property, an object yields its field. *)
Definition prop (v : value) (k : string) : Exn + value :=
  match v with
  | None => inl (TypeError ("Cannot read property '" ++ k ++ "' of undefined"))
  | Some JNull => inl (TypeError ("Cannot read property '" ++ k ++ "' of null"))
  | Some (JObj m) => inr (m !! k)
  | Some _ => inr None
  end.

(** ** Strings *)

Definition CR : ascii := ascii_of_nat 13.
Definition LF : ascii := ascii_of_nat 10.

(** The class [\s] of a JavaScript regular expression, on ASCII. *)
Definition is_ws (c : ascii) : bool :=
  let n := nat_of_ascii c in
  (Nat.eqb n 32 || (Nat.leb 9 n && Nat.leb n 13))%bool.

(** [s.replace(/(\r\n|\n\r|\r|\n)/g, "<br>")]: the alternatives are tried in
    order at each position, so a two-character line break gives one [<br>]. *)
Fixpoint replace_linebreaks (s : string) : string :=
  match s with
  | EmptyString => EmptyString
  | String c r =>
      if Ascii.eqb c CR then
        match r with
        | String c2 r2 =>
            if Ascii.eqb c2 LF then "<br>" ++ replace_linebreaks r2
            else "<br>" ++ replace_linebreaks r
        | EmptyString => "<br>"
        end
      else if Ascii.eqb c LF then
        match r with
        | String c2 r2 =>
            if Ascii.eqb c2 CR then "<br>" ++ replace_linebreaks r2
            else "<br>" ++ replace_linebreaks r
        | EmptyString => "<br>"
        end
      else String c (replace_linebreaks r)
  end.

(** [String.prototype.trim]. *)
Fixpoint trim_start (s : string) : string :=
  match s with
  | EmptyString => EmptyString
  | String c r => if is_ws c then trim_start r else s
  end.

Definition str_rev (s : string) : string :=
  string_of_list_ascii (List.rev (list_ascii_of_string s)).

Definition trim (s : string) : string :=
  str_rev (trim_start (str_rev (trim_start s))).

(** [s.replace(/\s\s+/g, ' ')]: every maximal run of two or more white-space
    characters becomes one space; a lone white-space character stays. *)
Inductive ws_run : Type :=
  | NoRun
  | OneWs (c : ascii)
  | ManyWs.

Definition flush_run (st : ws_run) (k : string) : string :=
  match st with
  | NoRun => k
  | OneWs c => String c k
  | ManyWs => String " " k
  end.

Fixpoint collapse_ws (st : ws_run) (s : string) : string :=
  match s with
  | EmptyString => flush_run st EmptyString
  | String c r =>
      if is_ws c then
        match st with
        | NoRun => collapse_ws (OneWs c) r
        | OneWs _ | ManyWs => collapse_ws ManyWs r
        end
      else flush_run st (String c (collapse_ws NoRun r))
  end.

(** underscore.string (3.x): [_s.clean(str) = trim(str).replace(/\s\s+/g, ' ')],
    on a string. *)
Definition clean (s : string) : string := collapse_ws NoRun (trim s).

(** [s.split(sep)] for a one-character separator; [cur] is the piece being
    read, reversed. *)
Fixpoint split_from (sep : ascii) (cur : list ascii) (s : string) : list string :=
  match s with
  | EmptyString => [string_of_list_ascii (List.rev cur)]
  | String c r =>
      if Ascii.eqb c sep then
        string_of_list_ascii (List.rev cur) :: split_from sep [] r
      else split_from sep (c :: cur) r
  end.

Definition split (sep : ascii) (s : string) : list string := split_from sep [] s.

(** [_.compact] on an array of strings: the empty string is the only falsy
    string. *)
Definition compact (l : list string) : list string :=
  List.filter (fun s => negb (String.eqb s "")) l.

(** ** Paths *)

(** [path.join] and [path.normalize] of Node, on POSIX paths.
    [normalizeArray(parts, allowAboveRoot)] resolves ['.'] and ['..'] and
    drops the empty parts. *)
Definition normalize_part (allowAboveRoot : bool) (res : list string) (p : string)
  : list string :=
  if (String.eqb p "" || String.eqb p ".")%bool then res
  else if String.eqb p ".." then
    match last res with
    | Some l =>
        if String.eqb l ".." then (if allowAboveRoot then res ++ [".."] else res)
        else removelast res
    | None => if allowAboveRoot then res ++ [".."] else res
    end
  else res ++ [p].

Definition normalizeArray (parts : list string) (allowAboveRoot : bool) : list string :=
  fold_left (normalize_part allowAboveRoot) parts [].

Definition starts_with_slash (s : string) : bool :=
  match s with
  | String c _ => Ascii.eqb c "/"
  | EmptyString => false
  end.

Definition path_normalize (path : string) : string :=
  let isAbsolute := starts_with_slash path in
  let trailingSlash := starts_with_slash (str_rev path) in
  let p := String.concat "/" (normalizeArray (split "/" path) (negb isAbsolute)) in
  let p := if (String.eqb p "" && negb isAbsolute)%bool then "." else p in
  let p := if (negb (String.eqb p "") && trailingSlash)%bool then p ++ "/" else p in
  (if isAbsolute then "/" else "") ++ p.

(** [path.join(...segments)]: the non-empty segments joined with ['/'], then
    normalized. *)
Definition path_join (segments : list string) : string :=
  path_normalize
    (fold_left (fun path segment =>
                  if String.eqb segment "" then path
                  else if String.eqb path "" then segment
                  else path ++ "/" ++ segment)
               segments "").

(** ** Documents *)

(** The user attached to a request by the authentication middleware. *)
Record User : Type := mkUser {
  user_id : ObjectId;      (* user._id *)
  role : string            (* user.role *)
}.

(** [req.user]: [undefined], [null] or a user. *)
Inductive ReqUser : Type :=
  | UserUndefined
  | UserNull
  | UserDoc (u : User).

Module HistoryItem.
Record t : Type := mk {
    action : string;
    description : string;
    owner : ObjectId
  }.
End HistoryItem.

Module Comment.
Record t : Type := mk {
    owner : value;         (* commentJson.ownerId *)
    date : Z;              (* new Date() *)
    comment : string       (* marked(comment) *)
  }.
End Comment.

Module Attachment.
Record t : Type := mk {
    id : ObjectId;
    path : string
  }.
End Attachment.

Module Ticket.
Record t : Type := mk {
    id : ObjectId;                     (* _id *)
    uid : Z;
    owner : value;
    group : value;
    status : value;
    closedDate : value;
    subject : value;
    issue : value;
    updated : option Z;
    deleted : bool;
    tags : list string;
    comments : list Comment.t;
    history : list HistoryItem.t;
    attachments : list Attachment.t;
    subscribers : list ObjectId
  }.

Definition set_owner (v : value) (x : t) : t :=
    mk (id x) (uid x) v (group x) (status x) (closedDate x) (subject x)
       (issue x) (updated x) (deleted x) (tags x) (comments x) (history x)
       (attachments x) (subscribers x).
Definition set_group (v : value) (x : t) : t :=
    mk (id x) (uid x) (owner x) v (status x) (closedDate x) (subject x)
       (issue x) (updated x) (deleted x) (tags x) (comments x) (history x)
       (attachments x) (subscribers x).
Definition set_status (v : value) (x : t) : t :=
    mk (id x) (uid x) (owner x) (group x) v (closedDate x) (subject x)
       (issue x) (updated x) (deleted x) (tags x) (comments x) (history x)
       (attachments x) (subscribers x).
Definition set_closedDate (v : value) (x : t) : t :=
    mk (id x) (uid x) (owner x) (group x) (status x) v (subject x)
       (issue x) (updated x) (deleted x) (tags x) (comments x) (history x)
       (attachments x) (subscribers x).
Definition set_issue (v : value) (x : t) : t :=
    mk (id x) (uid x) (owner x) (group x) (status x) (closedDate x) (subject x)
       v (updated x) (deleted x) (tags x) (comments x) (history x)
       (attachments x) (subscribers x).
Definition set_updated (v : option Z) (x : t) : t :=
    mk (id x) (uid x) (owner x) (group x) (status x) (closedDate x) (subject x)
       (issue x) v (deleted x) (tags x) (comments x) (history x)
       (attachments x) (subscribers x).
Definition set_tags (v : list string) (x : t) : t :=
    mk (id x) (uid x) (owner x) (group x) (status x) (closedDate x) (subject x)
       (issue x) (updated x) (deleted x) v (comments x) (history x)
       (attachments x) (subscribers x).
Definition set_comments (v : list Comment.t) (x : t) : t :=
    mk (id x) (uid x) (owner x) (group x) (status x) (closedDate x) (subject x)
       (issue x) (updated x) (deleted x) (tags x) v (history x)
       (attachments x) (subscribers x).
Definition set_history (v : list HistoryItem.t) (x : t) : t :=
    mk (id x) (uid x) (owner x) (group x) (status x) (closedDate x) (subject x)
       (issue x) (updated x) (deleted x) (tags x) (comments x) v
       (attachments x) (subscribers x).
Definition set_attachments (v : list Attachment.t) (x : t) : t :=
    mk (id x) (uid x) (owner x) (group x) (status x) (closedDate x) (subject x)
       (issue x) (updated x) (deleted x) (tags x) (comments x) (history x)
       v (subscribers x).
Definition set_subscribers (v : list ObjectId) (x : t) : t :=
    mk (id x) (uid x) (owner x) (group x) (status x) (closedDate x) (subject x)
       (issue x) (updated x) (deleted x) (tags x) (comments x) (history x)
       (attachments x) v.
End Ticket.

(** ** Requests and responses *)

(** An error passed to a callback. *)
Record Err : Type := mkErr { message : string }.

Record Request : Type := mkRequest {
  body : value;                        (* req.body *)
  user : ReqUser;                      (* req.user *)
  params : gmap string string;         (* req.params *)
  headers : gmap string string         (* req.headers *)
}.

(** A value placed in a response body. *)
Inductive RVal : Type :=
  | RBool (b : bool)
  | RStr (s : string)
  | RJson (j : json)
  | RErr (e : Err)
  | RTicket (t : Ticket.t).

Inductive Body : Type :=
  | Json (fields : list (string * RVal))     (* res.json({...}) *)
  | JsonTicket (t : Ticket.t)                (* res.json(t) *)
  | Send (v : RVal).                         (* res.send(v) *)

(** [res.status(c)] followed by [json] or [send]; the status is 200 when the
    handler does not set one. *)
Record Response : Type := mkResponse {
  code : Z;
  payload : Body
}.

(** Events published on the process-wide emitter. *)
Inductive Event : Type :=
  | TicketCreated (socketId : json) (t : Ticket.t)
  | TicketUpdated (t : Ticket.t)
  | TicketCommentAdded (t : Ticket.t) (c : Comment.t)
  | TicketSubscribersUpdate.

(** Operations a handler performed on the ticket store. *)
Inductive StoreOp : Type :=
  | OpFind (key : string)
  | OpSaved (t : Ticket.t)
  | OpSaveFailed (t : Ticket.t) (err : Err).

Record World : Type := mkWorld {
  store : gmap ObjectId Ticket.t;
  oplog : list StoreOp;
  events : list Event;
  response : option Response;
  files : gset string
}.

(** ** The handler monad *)

Inductive Res (A : Type) : Type :=
  | Ok (a : A) (w : World)
  | Threw (e : Exn) (w : World).
Arguments Ok {A} a w.
Arguments Threw {A} e w.

Definition M (A : Type) : Type := World -> Res A.

#[global] Instance M_ret : MRet M := fun A (a : A) w => Ok a w.

#[global] Instance M_bind : MBind M := fun A B (k : A -> M B) (m : M A) w =>
  match m w with
  | Ok a w' => k a w'
  | Threw e w' => Threw e w'
  end.

Definition throw {A} (e : Exn) : M A := fun w => Threw e w.

(** Lift a property read that may throw. *)
Definition lift {A} (r : Exn + A) : M A :=
  match r with
  | inl e => throw e
  | inr a => mret a
  end.

Definition world_of {A} (r : Res A) : World :=
  match r with
  | Ok _ w | Threw _ w => w
  end.

(** The world once [res.status(c)] and a body have been sent. *)
Definition responded (c : Z) (b : Body) (w : World) : World :=
  mkWorld (store w) (oplog w) (events w) (Some (mkResponse c b)) (files w).

Definition respond (c : Z) (b : Body) : M unit :=
  fun w => Ok tt (responded c b w).

Definition emit (e : Event) : M unit :=
  fun w => Ok tt (mkWorld (store w) (oplog w) (events w ++ [e])
                          (response w) (files w)).

Definition log (o : StoreOp) : M unit :=
  fun w => Ok tt (mkWorld (store w) (oplog w ++ [o]) (events w)
                          (response w) (files w)).

(** ** Collaborators of the controller *)

(** What a request depends on besides the request and the world: libraries
    (marked, the permission table), the clock, the choices of the store
    (identifiers, failures, schema casts) and of the file system. *)
Record Env : Type := mkEnv {
  marked : string -> string;                      (* require('marked') *)
  toString : json -> string;                      (* '' + v, v not a string *)
  canThis : string -> string -> bool;             (* permissions.canThis *)
  getUserByAccessToken : option string -> Err + option User;
  date_new : Z;                                   (* new Date() *)
  now : Z;                                        (* Date.now() *)
  new_id : ObjectId;                              (* _id of a new document *)
  new_uid : Z;                                    (* uid of a new document *)
  castString : json -> value;                     (* String field, v not a string *)
  castNumber : string -> Z;                       (* Number query parameter *)
  castTags : json -> list string;
  castComments : json -> list Comment.t;
  castHistory : json -> list HistoryItem.t;
  castAttachments : json -> list Attachment.t;
  castSubscribers : json -> list ObjectId;
  find_error : option string -> option Err;       (* a query that fails *)
  save_error : Ticket.t -> option Err;            (* a save that fails *)
  remove_error : Ticket.t -> ObjectId -> option Err;
  populate_error : Ticket.t -> option Err;
  unlink_error : string -> option string;         (* an unlinkSync that fails, its code *)
  dirname : string                                (* __dirname *)
}.

Definition with_store (s : gmap ObjectId Ticket.t) (o : StoreOp) (w : World) : World :=
  mkWorld s (oplog w ++ [o]) (events w) (response w) (files w).

Section Collaborators.
Context (E : Env).

(** underscore.string [makeString]: [null] gives the empty string, anything
    else is converted with ['' + v]. *)
Definition makeString (j : json) : string :=
  match j with
  | JNull => ""
  | JStr s => s
  | _ => toString E j
  end.

(** The text of a value used as a key of the store. *)
Definition key (j : json) : string :=
  match j with
  | JStr s => s
  | _ => toString E j
  end.

Definition field (postData : value) (k : string) : value :=
  match prop postData k with
  | inr v => v
  | inl _ => None
  end.

Definition seq_field {A} (cast : json -> list A) (postData : value) (k : string) : list A :=
  match field postData k with
  | Some j => cast j
  | None => []
  end.

(** Modelled from the spec: the constructor of the ticket model
    (models/ticket, not under src/).  The document takes its fields from the
    payload; a field the payload does not carry is [undefined], a sequence
    the payload does not carry is empty; the schema casts what the payload
    carries ([issue] is a String field). *)
Definition ticketModel (postData : value) : Ticket.t :=
  Ticket.mk (new_id E) (new_uid E)
    (field postData "owner") (field postData "group") (field postData "status")
    (field postData "closedDate") (field postData "subject")
    (match field postData "issue" with
     | None => None
     | Some JNull => Some JNull
     | Some (JStr s) => Some (JStr s)
     | Some j => castString E j
     end)
    None false
    (seq_field (castTags E) postData "tags")
    (seq_field (castComments E) postData "comments")
    (seq_field (castHistory E) postData "history")
    (seq_field (castAttachments E) postData "attachments")
    (seq_field (castSubscribers E) postData "subscribers").

(** Modelled from the spec: the ticket store (models/ticket, not under src/).
    A query by storage identifier fails or yields the stored record, [None]
    ([null]) when there is none. *)
Definition getTicketById (oId : option string) : M (Err + option Ticket.t) :=
  fun w =>
    let r := match find_error E oId with
             | Some e => inl e
             | None => inr (oId ≫= fun i => store w !! i)
             end in
    Ok r (with_store (store w) (OpFind (default "" oId)) w).

(** Modelled from the spec: a query by the sequential numeric [uid]. *)
Definition getTicketByUid (uid : string) : M (Err + option Ticket.t) :=
  fun w =>
    let r := match find_error E (Some uid) with
             | Some e => inl e
             | None =>
                 inr (head (List.filter
                              (fun t => Ticket.uid t =? castNumber E uid)
                              (map_to_list (store w)).*2))
             end in
    Ok r (with_store (store w) (OpFind uid) w).

(** Modelled from the spec: [ticket.save] persists the document as it is
    under its identifier and hands it to the callback, or fails and leaves
    the store as it was. *)
Definition save (t : Ticket.t) : M (Err + Ticket.t) :=
  fun w =>
    match save_error E t with
    | Some e => Ok (inl e) (with_store (store w) (OpSaveFailed t e) w)
    | None => Ok (inr t) (with_store (<[Ticket.id t := t]> (store w)) (OpSaved t) w)
    end.

(** Modelled from the spec: [ticket.getAttachment(id, cb)] hands the
    attachment with that identifier to the callback, [undefined] when the
    ticket has none. *)
Definition getAttachment (t : Ticket.t) (aid : ObjectId) : option Attachment.t :=
  head (List.filter (fun a => String.eqb (Attachment.id a) aid) (Ticket.attachments t)).

(** Modelled from the spec: [ticket.removeAttachment(userId, id, cb)] removes
    the attachment record and, as every mutation, appends a history entry. *)
Definition Ticket_removeAttachment (t : Ticket.t) (userId aid : ObjectId)
  : Err + Ticket.t :=
  match remove_error E t aid with
  | Some e => inl e
  | None =>
      inr (Ticket.set_history
             (Ticket.history t ++
                [HistoryItem.mk "ticket:delete:attachment" "Attachment was deleted" userId])
             (Ticket.set_attachments
                (List.filter (fun a => negb (String.eqb (Attachment.id a) aid))
                             (Ticket.attachments t)) t))
  end.

(** Modelled from the spec: the subscribers are a set of user references.
    [ticket.addSubscriber(user, cb)] makes the user a member,
    [ticket.removeSubscriber(user, cb)] makes the user a non-member. *)
Definition addSubscriber (t : Ticket.t) (u : json) : Ticket.t :=
  if bool_decide (key u ∈ Ticket.subscribers t) then t
  else Ticket.set_subscribers (Ticket.subscribers t ++ [key u]) t.

Definition removeSubscriber (t : Ticket.t) (u : json) : Ticket.t :=
  Ticket.set_subscribers
    (List.filter (fun s => negb (String.eqb s (key u))) (Ticket.subscribers t)) t.

(** [if (fs.existsSync(dir)) fs.unlinkSync(dir)]: [files] holds the paths
    that exist, directories included; unlinking a path that exists removes
    it or throws (a directory, a path without permission) and leaves it. *)
Definition unlink_if_exists (dir : string) : M unit :=
  fun w =>
    if bool_decide (dir ∈ files w) then
      match unlink_error E dir with
      | Some code => Threw (SystemError code) w
      | None =>
          Ok tt (mkWorld (store w) (oplog w) (events w) (response w) (files w ∖ {[dir]}))
      end
    else Ok tt w.

(** [req.user._id] and [req.user.role]. *)
Definition user_prop {A} (f : User -> A) (k : string) (u : ReqUser) : M A :=
  match u with
  | UserUndefined => throw (TypeError ("Cannot read property '" ++ k ++ "' of undefined"))
  | UserNull => throw (TypeError ("Cannot read property '" ++ k ++ "' of null"))
  | UserDoc d => mret (f d)
  end.

(** [v.replace(/(\r\n|\n\r|\r|\n)/g, "<br>")] on a value: only a string has
    the method. *)
Definition js_replace_linebreaks (v : value) : M string :=
  match v with
  | Some (JStr s) => mret (replace_linebreaks s)
  | None => throw (TypeError "Cannot read property 'replace' of undefined")
  | Some JNull => throw (TypeError "Cannot read property 'replace' of null")
  | Some _ => throw (TypeError "replace is not a function")
  end.

End Collaborators.

(** ** The handlers of [api_tickets] *)

Module api_tickets.
Section Handlers.
Context (E : Env).

Definition error_body (msg : string) : Body := Json [("error", RStr msg)].

(** [api_tickets.create] *)
Definition create (req : Request) : M unit :=
  let postData := body req in
  if negb (isObject postData) then
    respond 400 (Json [("success", RBool false); ("error", RStr "Invalid Post Data")])
  else
    sid ← lift (prop postData "socketId");
    let socketId := match sid with None => JStr "" | Some j => j end in
    ptags ← lift (prop postData "tags");
    let tags := match ptags with
                | None => []
                | Some j => compact (split "," (clean (makeString E j)))
                end in
    uid ← user_prop user_id "_id" (user req);
    let HistoryItem := HistoryItem.mk "ticket:created" "Ticket was created." uid in
    let ticket := ticketModel E postData in
    let ticket := Ticket.set_owner (Some (JStr uid)) ticket in
    tIssue ← js_replace_linebreaks (Ticket.issue ticket);
    let ticket := Ticket.set_issue (Some (JStr (marked E tIssue))) ticket in
    let ticket := Ticket.set_tags tags ticket in
    let ticket := Ticket.set_history [HistoryItem] ticket in
    let ticket := Ticket.set_subscribers [uid] ticket in
    r ← save E ticket;
    match r with
    | inl err =>
        respond 400 (Json [("success", RBool false); ("error", RErr err)])
    | inr t =>
        emit (TicketCreated socketId t);;
        respond 200 (Json [("success", RBool true); ("ticket", RTicket t)])
    end.

(** [api_tickets.single] *)
Definition single (req : Request) : M unit :=
  match params req !! "uid" with
  | None =>
      respond 200 (Json [("success", RBool false); ("error", RStr "Invalid Ticket")])
  | Some uid =>
      r ← getTicketByUid E uid;
      match r with
      | inl err => respond 200 (Send (RErr err))
      | inr None =>
          respond 200 (Json [("success", RBool false); ("error", RStr "Invalid Ticket")])
      | inr (Some ticket) =>
          respond 200 (Json [("success", RBool true); ("ticket", RTicket ticket)])
      end
  end.

(** [if (!_.isUndefined(reqTicket.k)) ticket.k = reqTicket.k;] where [ticket]
    is what the query returned, [None] being [null]. *)
Definition assign_if_defined (reqTicket : value) (k : string)
    (set : value -> Ticket.t -> Ticket.t) (ticket : option Ticket.t)
  : M (option Ticket.t) :=
  v ← lift (prop reqTicket k);
  match v with
  | None => mret ticket
  | Some j =>
      match ticket with
      | None => throw (TypeError ("Cannot set property '" ++ k ++ "' of null"))
      | Some t => mret (Some (set (Some j) t))
      end
  end.

(** [api_tickets.update] *)
Definition update (req : Request) : M unit :=
  match user req with
  | UserDoc _ =>
      let oId := params req !! "id" in
      let reqTicket := body req in
      if isUndefined oId then respond 200 (Send (RStr "Invalid Ticket Id"))
      else
        r ← getTicketById E oId;
        match r with
        | inl err => respond 200 (Send (RStr (message err)))
        | inr ticket =>
            ticket ← assign_if_defined reqTicket "status" Ticket.set_status ticket;
            ticket ← assign_if_defined reqTicket "group" Ticket.set_group ticket;
            ticket ← assign_if_defined reqTicket "closedDate" Ticket.set_closedDate ticket;
            match ticket with
            | None => throw (TypeError "Cannot read property 'save' of null")
            | Some ticket =>
                r ← save E ticket;
                match r with
                | inl err => respond 200 (Send (RStr (message err)))
                | inr t => emit (TicketUpdated t);; respond 200 (JsonTicket t)
                end
            end
        end
  | UserUndefined | UserNull => mret tt
  end.

(** [api_tickets.postComment] *)
Definition postComment (req : Request) : M unit :=
  let accessToken := headers req !! "accesstoken" in
  match getUserByAccessToken E accessToken with
  | inl err => respond 401 (error_body (message err))
  | inr None => respond 401 (error_body "Unknown User")
  | inr (Some user) =>
      let commentJson := body req in
      comment ← lift (prop commentJson "comment");
      owner ← lift (prop commentJson "ownerId");
      ticketId ← lift (prop commentJson "_id");
      match ticketId with
      | None => respond 200 (Send (RStr "Invalid Ticket Id"))
      | Some ticketId =>
          r ← getTicketById E (Some (key E ticketId));
          match r with
          | inl err => respond 200 (Send (RStr (message err)))
          | inr t =>
              match comment with
              | None => respond 200 (Send (RStr "Invalid Comment"))
              | Some _ =>
                  comment ← js_replace_linebreaks comment;
                  let Comment := Comment.mk owner (date_new E) (marked E comment) in
                  match t with
                  | None => throw (TypeError "Cannot set property 'updated' of null")
                  | Some t =>
                      let t := Ticket.set_updated (Some (now E)) t in
                      let t := Ticket.set_comments (Ticket.comments t ++ [Comment]) t in
                      let HistoryItem :=
                        HistoryItem.mk "ticket:comment:added" "Comment was added"
                                       (user_id user) in
                      let t := Ticket.set_history (Ticket.history t ++ [HistoryItem]) t in
                      r ← save E t;
                      match r with
                      | inl err => respond 200 (Send (RStr (message err)))
                      | inr tt' =>
                          match populate_error E tt' with
                          | Some _ => mret tt
                          | None =>
                              emit (TicketCommentAdded tt' Comment);;
                              respond 200 (Json [("ticket", RTicket tt')])
                          end
                      end
                  end
              end
          end
      end
  end.

(** [api_tickets.removeAttachment] *)
Definition removeAttachment (req : Request) : M unit :=
  match params req !! "tid", params req !! "aid" with
  | Some ticketId, Some attachmentId =>
      match user req with
      | UserUndefined => respond 400 (error_body "Invalid User Auth.")
      | UserNull => throw (TypeError "Cannot read property 'role' of null")
      | UserDoc user =>
          if negb (canThis E (role user) "tickets:removeAttachment") then
            respond 401 (error_body "Invalid Permissions")
          else
            r ← getTicketById E (Some ticketId);
            match r with
            | inl _ => respond 400 (Send (RStr "Invalid Ticket Id"))
            | inr None => throw (TypeError "Cannot read property 'getAttachment' of null")
            | inr (Some ticket) =>
                let a := getAttachment ticket attachmentId in
                match Ticket_removeAttachment E ticket (user_id user) attachmentId with
                | inl _ => respond 400 (error_body "Invalid Request.")
                | inr ticket =>
                    match a with
                    | None => throw (TypeError "Cannot read property 'path' of undefined")
                    | Some a =>
                        let dir := path_join [dirname E; "../../../../public";
                                              Attachment.path a] in
                        unlink_if_exists E dir;;
                        r ← save E ticket;
                        match r with
                        | inl _ => respond 401 (error_body "Invalid Request.")
                        | inr t => respond 200 (Send (RTicket t))
                        end
                    end
                end
            end
      end
  | _, _ => respond 400 (error_body "Invalid Attachment")
  end.

(** [api_tickets.subscribe] *)
Definition subscribe (req : Request) : M unit :=
  let ticketId := params req !! "id" in
  let data := body req in
  u ← lift (prop data "user");
  s ← lift (prop data "subscribe");
  match u, s with
  | Some u, Some s =>
      r ← getTicketById E ticketId;
      match r with
      | inl _ => respond 400 (error_body "Invalid Ticket Id")
      | inr None =>
          throw (TypeError (if truthy s
                            then "Cannot read property 'addSubscriber' of null"
                            else "Cannot read property 'removeSubscriber' of null"))
      | inr (Some ticket) =>
          let ticket := if truthy s then addSubscriber E ticket u
                        else removeSubscriber E ticket u in
          r ← save E ticket;
          match r with
          | inl err => respond 400 (Json [("error", RErr err)])
          | inr _ =>
              emit TicketSubscribersUpdate;;
              respond 200 (Json [("success", RBool true)])
          end
      end
  | _, _ => respond 400 (error_body "Invalid Payload.")
  end.

End Handlers.
End api_tickets.

(** ** Fixtures *)

Definition alice : User := mkUser "u1" "admin".

Definition env_of (can : string -> string -> bool) (clock : Z)
    (save_err : Ticket.t -> option Err) : Env :=
  mkEnv (fun s => s) (fun _ => "") can
        (fun _ => inr (Some alice))
        clock clock "t1" 1
        (fun _ => None) (fun s => if String.eqb s "1" then 1 else 0)
        (fun _ => []) (fun _ => []) (fun _ => []) (fun _ => []) (fun _ => [])
        (fun _ => None) save_err (fun _ _ => None) (fun _ => None)
        (fun _ => None) "/src/controllers/api/v1".

Definition env0 : Env :=
  env_of (fun r _ => String.eqb r "admin") 1000 (fun _ => None).

(** An environment in which every save fails. *)
Definition env_save_fails : Env :=
  env_of (fun r _ => String.eqb r "admin") 1000 (fun _ => Some (mkErr "save failed")).

Definition world0 : World := mkWorld ∅ [] [] None ∅.

Definition obj (l : list (string * json)) : value := Some (JObj (list_to_map l)).

Definition req_create_abc : Request :=
  mkRequest (obj [("subject", JStr "Subject"); ("issue", JStr "Issue"); ("tags", JStr "a,b,c")])
            (UserDoc alice) ∅ ∅.

Definition ticket_abc : Ticket.t :=
  Ticket.mk "t1" 1 (Some (JStr "u1")) None None None (Some (JStr "Subject"))
    (Some (JStr "Issue")) None false ["a"; "b"; "c"] []
    [HistoryItem.mk "ticket:created" "Ticket was created." "u1"] [] ["u1"].

Definition created_body (t : Ticket.t) : Body :=
  Json [("success", RBool true); ("ticket", RTicket t)].

Definition world_abc : World :=
  mkWorld {[ "t1" := ticket_abc ]} [OpSaved ticket_abc]
          [TicketCreated (JStr "") ticket_abc]
          (Some (mkResponse 200 (created_body ticket_abc))) ∅.


Definition invalid_post_data : Body :=
  Json [("success", RBool false); ("error", RStr "Invalid Post Data")].

Definition save_failed_body (err : Err) : Body :=
  Json [("success", RBool false); ("error", RErr err)].

(** The request of the example of the specification: no [issue]. *)
Definition req_create_no_issue : Request :=
  mkRequest (obj [("subject", JStr "Subject"); ("tags", JStr "a,b,c")])
            (UserDoc alice) ∅ ∅.

Definition req_create_aa : Request :=
  mkRequest (obj [("subject", JStr "Subject"); ("issue", JStr "Issue"); ("tags", JStr "a,a")])
            (UserDoc alice) ∅ ∅.

Definition ticket_aa : Ticket.t :=
  Ticket.mk "t1" 1 (Some (JStr "u1")) None None None (Some (JStr "Subject"))
    (Some (JStr "Issue")) None false ["a"; "a"] []
    [HistoryItem.mk "ticket:created" "Ticket was created." "u1"] [] ["u1"].

Definition world_aa : World :=
  mkWorld {[ "t1" := ticket_aa ]} [OpSaved ticket_aa]
          [TicketCreated (JStr "") ticket_aa]
          (Some (mkResponse 200 (created_body ticket_aa))) ∅.

Definition req_create_string_body : Request :=
  mkRequest (Some (JStr "subject=Subject")) (UserDoc alice) ∅ ∅.

(** The field [k] of a ticket after [update]: the value of the request when
    the request carries one, the old value otherwise. *)
Definition applied (reqTicket : value) (k : string)
    (set : value -> Ticket.t -> Ticket.t) (t : Ticket.t) : Ticket.t :=
  match field reqTicket k with
  | Some j => set (Some j) t
  | None => t
  end.

Definition created_entry (u : ObjectId) : HistoryItem.t :=
  HistoryItem.mk "ticket:created" "Ticket was created." u.

(** The ticket [update] hands to [ticket.save] when the query found [t]. *)
Definition updated_ticket (reqTicket : value) (t : Ticket.t) : Ticket.t :=
  applied reqTicket "closedDate" Ticket.set_closedDate
    (applied reqTicket "group" Ticket.set_group
       (applied reqTicket "status" Ticket.set_status t)).

(** The document [create] hands to [ticket.save] for the requester [u], the
    issue of the constructed document being the string [s0]. *)
Definition created_document (E : Env) (req : Request) (u : User) (s0 : string)
  : Ticket.t :=
  Ticket.set_subscribers [user_id u]
    (Ticket.set_history [created_entry (user_id u)]
       (Ticket.set_tags
          (match field (body req) "tags" with
           | None => []
           | Some j => compact (split "," (clean (makeString E j)))
           end)
          (Ticket.set_issue (Some (JStr (marked E (replace_linebreaks s0))))
             (Ticket.set_owner (Some (JStr (user_id u)))
                (ticketModel E (body req)))))).

(** A stored ticket, last updated at time 2000, with one attachment. *)
Definition ticket_open : Ticket.t :=
  Ticket.mk "t1" 1 (Some (JStr "u1")) (Some (JStr "g1")) (Some (JNum 0)) None
    (Some (JStr "Subject")) (Some (JStr "Issue")) (Some 2000) false [] []
    [created_entry "u1"] [Attachment.mk "a1" "uploads/a1.png"] ["u1"].

Definition world_open : World :=
  mkWorld {[ "t1" := ticket_open ]} [] [] None {[ "/public/uploads/a1.png" ]}.

Definition req_update_status : Request :=
  mkRequest (obj [("status", JNum 1)]) (UserDoc alice) {[ "id" := "t1" ]} ∅.

Definition req_update_no_user : Request :=
  mkRequest (obj [("status", JNum 1)]) UserUndefined {[ "id" := "t1" ]} ∅.

Definition ticket_open_status1 : Ticket.t := Ticket.set_status (Some (JNum 1)) ticket_open.

Definition world_open_status1 : World :=
  mkWorld {[ "t1" := ticket_open_status1 ]}
          [OpFind "t1"; OpSaved ticket_open_status1]
          [TicketUpdated ticket_open_status1]
          (Some (mkResponse 200 (JsonTicket ticket_open_status1)))
          {[ "/public/uploads/a1.png" ]}.

Definition invalid_ticket : Body :=
  Json [("success", RBool false); ("error", RStr "Invalid Ticket")].

Definition req_single_no_uid : Request := mkRequest None (UserDoc alice) ∅ ∅.

Definition req_single_unknown : Request :=
  mkRequest None (UserDoc alice) {[ "uid" := "1001" ]} ∅.

Definition comment_body (t : Ticket.t) : Body := Json [("ticket", RTicket t)].

Definition req_comment : Request :=
  mkRequest (obj [("_id", JStr "t1"); ("ownerId", JStr "u1"); ("comment", JStr "hello")])
            UserUndefined ∅ {[ "accesstoken" := "token" ]}.

Definition comment_hello : Comment.t := Comment.mk (Some (JStr "u1")) 1000 "hello".

Definition comment_entry (u : ObjectId) : HistoryItem.t :=
  HistoryItem.mk "ticket:comment:added" "Comment was added" u.

(** [ticket_open] after the comment, the clock reading 1000. *)
Definition ticket_commented : Ticket.t :=
  Ticket.mk "t1" 1 (Some (JStr "u1")) (Some (JStr "g1")) (Some (JNum 0)) None
    (Some (JStr "Subject")) (Some (JStr "Issue")) (Some 1000) false []
    [comment_hello] [created_entry "u1"; comment_entry "u1"]
    [Attachment.mk "a1" "uploads/a1.png"] ["u1"].

Definition world_commented : World :=
  mkWorld {[ "t1" := ticket_commented ]}
          [OpFind "t1"; OpSaved ticket_commented]
          [TicketCommentAdded ticket_commented comment_hello]
          (Some (mkResponse 200 (comment_body ticket_commented)))
          {[ "/public/uploads/a1.png" ]}.

(** An environment whose clock reads 3000. *)
Definition env_later : Env :=
  env_of (fun r _ => String.eqb r "admin") 3000 (fun _ => None).

(** A user whose role lacks every permission of [env0]. *)
Definition bob : User := mkUser "u2" "user".

Definition invalid_permissions : Response :=
  mkResponse 401 (api_tickets.error_body "Invalid Permissions").

Definition req_remove_no_tid_bob : Request :=
  mkRequest None (UserDoc bob) {[ "aid" := "a1" ]} ∅.

Definition req_remove_bob : Request :=
  mkRequest None (UserDoc bob) {[ "tid" := "t1"; "aid" := "a1" ]} ∅.

Definition req_remove_alice : Request :=
  mkRequest None (UserDoc alice) {[ "tid" := "t1"; "aid" := "a1" ]} ∅.

Definition subscribed_body : Body := Json [("success", RBool true)].

(** Every record of the store is kept under its own identifier. *)
Definition store_ok (w : World) : Prop :=
  forall (i : string) (t : Ticket.t), store w !! i = Some t -> Ticket.id t = i.

(** The two tickets have the same subscribers, as a set. *)
Definition same_subscribers (t1 t2 : Ticket.t) : Prop :=
  forall x : string, x ∈ Ticket.subscribers t1 <-> x ∈ Ticket.subscribers t2.

Definition req_subscribe (b : bool) : Request :=
  mkRequest (obj [("user", JStr "u1"); ("subscribe", JBool b)])
            (UserDoc alice) {[ "id" := "t1" ]} ∅.

(** [ticket_open], whose only subscriber is [u1], after [u1] has subscribed
    and then unsubscribed. *)
Definition ticket_unsubscribed : Ticket.t := Ticket.set_subscribers [] ticket_open.

Definition world_subscribed : World :=
  mkWorld {[ "t1" := ticket_open ]}
          [OpFind "t1"; OpSaved ticket_open]
          [TicketSubscribersUpdate]
          (Some (mkResponse 200 subscribed_body))
          {[ "/public/uploads/a1.png" ]}.

Definition world_unsubscribed : World :=
  mkWorld {[ "t1" := ticket_unsubscribed ]}
          [OpFind "t1"; OpSaved ticket_open; OpFind "t1"; OpSaved ticket_unsubscribed]
          [TicketSubscribersUpdate; TicketSubscribersUpdate]
          (Some (mkResponse 200 subscribed_body))
          {[ "/public/uploads/a1.png" ]}.

(** ** Further definitions: predicates on strings *)

(** The string holds a carriage return or a line feed. *)
Fixpoint has_linebreak (s : string) : bool :=
  match s with
  | EmptyString => false
  | String c r => (Ascii.eqb c CR || Ascii.eqb c LF || has_linebreak r)%bool
  end.

(** The string holds the character [a]. *)
Fixpoint has_char (a : ascii) (s : string) : bool :=
  match s with
  | EmptyString => false
  | String c r => (Ascii.eqb c a || has_char a r)%bool
  end.

(** The string holds two white-space characters in a row. *)
Fixpoint has_ws_pair (s : string) : bool :=
  match s with
  | EmptyString => false
  | String c r =>
      match r with
      | EmptyString => false
      | String d _ => ((is_ws c && is_ws d) || has_ws_pair r)%bool
      end
  end.

(** ** Further definitions: fixtures *)

Definition req_create_spaced_tags : Request :=
  mkRequest (obj [("issue", JStr "Issue"); ("tags", JStr " a ,, b,c ")])
            (UserDoc alice) ∅ ∅.

Definition ticket_spaced_tags : Ticket.t :=
  Ticket.mk "t1" 1 (Some (JStr "u1")) None None None None
    (Some (JStr "Issue")) None false ["a "; " b"; "c"] []
    [created_entry "u1"] [] ["u1"].

Definition world_spaced_tags : World :=
  mkWorld {[ "t1" := ticket_spaced_tags ]} [OpSaved ticket_spaced_tags]
          [TicketCreated (JStr "") ticket_spaced_tags]
          (Some (mkResponse 200 (created_body ticket_spaced_tags))) ∅.

(** A request to update a ticket that is not in the store. *)
Definition req_update_unknown : Request :=
  mkRequest (obj [("status", JNum 1)]) (UserDoc alice) {[ "id" := "t9" ]} ∅.

(** The world as the next request finds it: no response sent yet. *)
Definition next_request (w : World) : World :=
  mkWorld (store w) (oplog w) (events w) None (files w).

(** The ticket [postComment] saves: [t] with the comment and its history
    entry appended and [updated] set to the reading of the clock. *)
Definition with_comment (E : Env) (owner : value) (text : string) (u : User)
    (t : Ticket.t) : Ticket.t :=
  Ticket.set_history (Ticket.history t ++ [comment_entry (user_id u)])
    (Ticket.set_comments
       (Ticket.comments t ++
          [Comment.mk owner (date_new E) (marked E (replace_linebreaks text))])
       (Ticket.set_updated (Some (now E)) t)).

(** An environment in which the population of the comment owners fails. *)
Definition env_populate_fails : Env :=
  mkEnv (fun s => s) (fun _ => "") (fun r _ => String.eqb r "admin")
        (fun _ => inr (Some alice))
        1000 1000 "t1" 1
        (fun _ => None) (fun s => if String.eqb s "1" then 1 else 0)
        (fun _ => []) (fun _ => []) (fun _ => []) (fun _ => []) (fun _ => [])
        (fun _ => None) (fun _ => None) (fun _ _ => None)
        (fun _ => Some (mkErr "populate failed"))
        (fun _ => None) "/src/controllers/api/v1".

(** An environment that knows no access token. *)
Definition env_no_token : Env :=
  mkEnv (fun s => s) (fun _ => "") (fun r _ => String.eqb r "admin")
        (fun _ => inr None)
        1000 1000 "t1" 1
        (fun _ => None) (fun s => if String.eqb s "1" then 1 else 0)
        (fun _ => []) (fun _ => []) (fun _ => []) (fun _ => []) (fun _ => [])
        (fun _ => None) (fun _ => None) (fun _ _ => None) (fun _ => None)
        (fun _ => None) "/src/controllers/api/v1".

(** A comment posted by [alice]'s token in the name of another user. *)
Definition req_comment_as_other : Request :=
  mkRequest (obj [("_id", JStr "t1"); ("ownerId", JStr "u2");
                  ("comment", JStr ("line 1" ++ String LF "line 2"))])
            UserUndefined ∅ {[ "accesstoken" := "token" ]}.

Definition ticket_commented_as_other : Ticket.t :=
  with_comment env0 (Some (JStr "u2")) ("line 1" ++ String LF "line 2") alice ticket_open.

(** [ticket_open] once [alice] has removed its attachment. *)
Definition ticket_open_detached : Ticket.t :=
  Ticket.set_history
    [created_entry "u1";
     HistoryItem.mk "ticket:delete:attachment" "Attachment was deleted" "u1"]
    (Ticket.set_attachments [] ticket_open).

Definition invalid_payload : Response :=
  mkResponse 400 (api_tickets.error_body "Invalid Payload.").

(** A subscription request without the [subscribe] field. *)
Definition req_subscribe_no_flag : Request :=
  mkRequest (obj [("user", JStr "u1")]) (UserDoc alice) {[ "id" := "t1" ]} ∅.

(** ** The reporting handlers of [api_tickets] *)

(** What the reporting handlers depend on: the calendar of the server and
    the counting queries of the ticket store (models/ticket, not under
    src/). *)
Record StatsEnv : Type := mkStatsEnv {
  getFullYear : Z;                       (* now.getFullYear() *)
  month_start : Z -> Z -> Z;             (* new Date(year, month, 1).getTime() *)
  getMonthCount : Z -> Z -> Err + Z      (* ticketModel.getMonthCount(month, status, cb) *)
}.

(** [async.forEachSeries(arr, iterator, callback)]: the iterator is run on
    the elements in order, each run starting when the previous one has
    called [next]; the first error ends the loop and is handed to the
    callback.  The state is what the iterator mutates. *)
Fixpoint forEachSeries {A S : Type} (iterator : A -> S -> S * option Err)
    (arr : list A) (s : S) : S * option Err :=
  match arr with
  | [] => (s, None)
  | value :: rest =>
      match iterator value s with
      | (s', Some err) => (s', Some err)
      | (s', None) => forEachSeries iterator rest s'
      end
  end.

(** [Math.round] on an integer. *)
Definition Math_round (n : Z) : Z := n.

Module api_tickets_stats.

(** The variables [getMonthData] mutates, and the count queries made so
    far, each with its month and status, in order. *)
Record MonthData : Type := mkMonthData {
  newData : list json;           (* newData.data *)
  closedData : list json;        (* closedData.data *)
  counted : list (Z * Z)
}.

Definition dates : list Z := [0; 1; 2; 3; 4; 5; 6; 7; 8; 9; 10; 11].

(** The point [d] pushed for a month: [[date, Math.round(count)]]. *)
Definition point (S : StatsEnv) (value count : Z) : json :=
  JArr [JNum (month_start S (getFullYear S) value); JNum (Math_round count)].

(** The iterator of the [total] series. *)
Definition total_iterator (S : StatsEnv) (value : Z) (st : MonthData)
  : MonthData * option Err :=
  match getMonthCount S value (-1) with
  | inl err =>
      (mkMonthData (newData st) (closedData st) (counted st ++ [(value, -1)]), Some err)
  | inr count =>
      (mkMonthData (newData st ++ [point S value count]) (closedData st)
                   (counted st ++ [(value, -1)]), None)
  end.

(** The iterator of the [closed] series. *)
Definition closed_iterator (S : StatsEnv) (value : Z) (st : MonthData)
  : MonthData * option Err :=
  match getMonthCount S value 3 with
  | inl err =>
      (mkMonthData (newData st) (closedData st) (counted st ++ [(value, 3)]), Some err)
  | inr count =>
      (mkMonthData (newData st) (closedData st ++ [point S value count])
                   (counted st ++ [(value, 3)]), None)
  end.

(** [async.series({total, closed}, callback)]: [closed] starts when [total]
    has ended without error. *)
Definition month_series (S : StatsEnv) : MonthData * option Err :=
  match forEachSeries (total_iterator S) dates (mkMonthData [] [] []) with
  | (st, Some err) => (st, Some err)
  | (st, None) => forEachSeries (closed_iterator S) dates st
  end.

Definition series_json (data : list json) (label : string) : json :=
  JObj (list_to_map [("data", JArr data); ("label", JStr label)]).

(** [api_tickets.getMonthData]; [res.json(data)] sends what [res.send(data)]
    sends for an array. *)
Definition getMonthData (S : StatsEnv) (req : Request) : M unit :=
  match month_series S with
  | (_, Some err) => respond 400 (Send (RErr err))
  | (st, None) =>
      respond 200 (Send (RJson (JArr [series_json (newData st) "New";
                                       series_json (closedData st) "Closed"])))
  end.

End api_tickets_stats.

(** A store in which the count of month [m] with status [s] is [10 m + s + 1]. *)
Definition stats0 : StatsEnv :=
  mkStatsEnv 2015 (fun y m => y * 100 + m) (fun m s => inr (10 * m + s + 1)).

(** A store in which the count of the closed tickets of March fails. *)
Definition stats_march_fails : StatsEnv :=
  mkStatsEnv 2015 (fun y m => y * 100 + m)
    (fun m s => if ((m =? 2) && (s =? 3))%bool then inl (mkErr "count failed")
                else inr (10 * m + s + 1)).

(** A store in which the count of all tickets of March fails. *)
Definition stats_march_total_fails : StatsEnv :=
  mkStatsEnv 2015 (fun y m => y * 100 + m)
    (fun m s => if ((m =? 2) && (s =? -1))%bool then inl (mkErr "count failed")
                else inr (10 * m + s + 1)).

(** A well-formed payload sent without an authenticated user. *)
Definition req_create_anonymous : Request :=
  mkRequest (obj [("subject", JStr "Subject"); ("issue", JStr "Issue")])
            UserUndefined ∅ ∅.

Definition req_create_two_lines : Request :=
  mkRequest (obj [("issue", JStr ("line 1" ++ String CR (String LF "line 2")))])
            (UserDoc alice) ∅ ∅.

Definition ticket_two_lines : Ticket.t :=
  Ticket.mk "t1" 1 (Some (JStr "u1")) None None None None
    (Some (JStr "line 1<br>line 2")) None false [] []
    [created_entry "u1"] [] ["u1"].

Definition world_two_lines : World :=
  mkWorld {[ "t1" := ticket_two_lines ]} [OpSaved ticket_two_lines]
          [TicketCreated (JStr "") ticket_two_lines]
          (Some (mkResponse 200 (created_body ticket_two_lines))) ∅.

(** The path of the backing file of an attachment, as [removeAttachment]
    computes it. *)
Definition attachment_file (E : Env) (a : Attachment.t) : string :=
  path_join [dirname E; "../../../../public"; Attachment.path a].

(** An environment in which no file can be unlinked. *)
Definition env_unlink_fails : Env :=
  mkEnv (fun s => s) (fun _ => "") (fun r _ => String.eqb r "admin")
        (fun _ => inr (Some alice))
        1000 1000 "t1" 1
        (fun _ => None) (fun s => if String.eqb s "1" then 1 else 0)
        (fun _ => []) (fun _ => []) (fun _ => []) (fun _ => []) (fun _ => [])
        (fun _ => None) (fun _ => None) (fun _ _ => None) (fun _ => None)
        (fun _ => Some "EISDIR") "/src/controllers/api/v1".

(** An environment in which every lookup fails. *)
Definition env_find_fails : Env :=
  mkEnv (fun s => s) (fun _ => "") (fun r _ => String.eqb r "admin")
        (fun _ => inr (Some alice))
        1000 1000 "t1" 1
        (fun _ => None) (fun s => if String.eqb s "1" then 1 else 0)
        (fun _ => []) (fun _ => []) (fun _ => []) (fun _ => []) (fun _ => [])
        (fun _ => Some (mkErr "lookup failed")) (fun _ => None) (fun _ _ => None)
        (fun _ => None)
        (fun _ => None) "/src/controllers/api/v1".

(** [ticket_open] with an attachment whose path starts with a slash. *)
Definition ticket_slash : Ticket.t :=
  Ticket.set_attachments [Attachment.mk "a1" "/uploads/a1.png"] ticket_open.

Definition world_slash : World :=
  mkWorld {[ "t1" := ticket_slash ]} [] [] None {[ "/public/uploads/a1.png" ]}.

Definition ticket_slash_detached : Ticket.t :=
  Ticket.set_history
    [created_entry "u1";
     HistoryItem.mk "ticket:delete:attachment" "Attachment was deleted" "u1"]
    (Ticket.set_attachments [] ticket_slash).

(** An update request without the identifier of the ticket. *)
Definition req_update_no_id : Request :=
  mkRequest (obj [("status", JNum 1)]) (UserDoc alice) ∅ ∅.
(** * Properties *)

(** ** The string helpers on examples *)

Example replace_linebreaks_ex :
  replace_linebreaks ("a" ++ String CR (String LF "b") ++ String LF "c") = "a<br>b<br>c".
Proof. reflexivity. Qed.

Example clean_ex : clean "  a,  b ,c  " = "a, b ,c".
Proof. reflexivity. Qed.

Example split_ex : split "," "a,,b," = ["a"; ""; "b"; ""].
Proof. reflexivity. Qed.

Example create_abc_runs :
  api_tickets.create env0 req_create_abc world0 = Ok tt world_abc.
Proof. vm_compute. reflexivity. Qed.

(** ** Reasoning about handlers *)

Lemma bind_Ok_inv {A B} (m : M A) (k : A -> M B) (w w' : World) (b : B) :
  (m ≫= k) w = Ok b w' ->
  exists a w1, m w = Ok a w1 /\ k a w1 = Ok b w'.
Proof.
  unfold mbind, M_bind. destruct (m w) as [a w1|e w1]; intros H.
  - exists a, w1. split; [reflexivity | exact H].
  - discriminate H.
Qed.

Lemma lift_Ok_inv {A} (r : Exn + A) (w w' : World) (a : A) :
  lift r w = Ok a w' -> r = inr a /\ w' = w.
Proof.
  destruct r as [e|x]; cbn; intros H; [discriminate H|].
  injection H as -> ->. split; reflexivity.
Qed.

Lemma user_prop_Ok_inv {A} (f : User -> A) (k : string) (u : ReqUser) (w w' : World) (a : A) :
  user_prop f k u w = Ok a w' -> exists d, u = UserDoc d /\ a = f d /\ w' = w.
Proof.
  destruct u as [| |d]; cbn; intros H; try discriminate H.
  injection H as <- <-. exists d. repeat split.
Qed.

Lemma js_replace_linebreaks_Ok_inv (v : value) (w w' : World) (s : string) :
  js_replace_linebreaks v w = Ok s w' ->
  exists s0, v = Some (JStr s0) /\ s = replace_linebreaks s0 /\ w' = w.
Proof.
  destruct v as [[| | |s0| |]|]; cbn; intros H; try discriminate H.
  injection H as <- <-. exists s0. repeat split.
Qed.

Lemma save_Ok_inv (E : Env) (t : Ticket.t) (w w' : World) (r : Err + Ticket.t) :
  save E t w = Ok r w' ->
  (exists e, save_error E t = Some e /\ r = inl e /\
             w' = with_store (store w) (OpSaveFailed t e) w) \/
  (save_error E t = None /\ r = inr t /\
   w' = with_store (<[Ticket.id t := t]> (store w)) (OpSaved t) w).
Proof.
  unfold save. destruct (save_error E t) as [e|]; intros H; injection H as <- <-.
  - left. exists e. repeat split.
  - right. repeat split.
Qed.

(** Peel the next step off a handler run that returned. *)
Ltac step H :=
  let a := fresh "a" in
  let w1 := fresh "w" in
  let H1 := fresh "Hstep" in
  apply bind_Ok_inv in H as (a & w1 & H1 & H).

(** ** Creation *)

(** Where a run of [create] returns with the success body, the request and
    the stored ticket are as follows. *)
Lemma create_success_inv (E : Env) (req : Request) (w w' : World) (t : Ticket.t) :
  api_tickets.create E req w = Ok tt w' ->
  response w' = Some (mkResponse 200 (created_body t)) ->
  exists (u : User) (s0 : string) (ptags : value),
    user req = UserDoc u /\
    isObject (body req) = true /\
    prop (body req) "tags" = inr ptags /\
    Ticket.issue (ticketModel E (body req)) = Some (JStr s0) /\
    save_error E t = None /\
    t = Ticket.set_subscribers [user_id u]
          (Ticket.set_history
             [HistoryItem.mk "ticket:created" "Ticket was created." (user_id u)]
             (Ticket.set_tags
                (match ptags with
                 | None => []
                 | Some j => compact (split "," (clean (makeString E j)))
                 end)
                (Ticket.set_issue (Some (JStr (marked E (replace_linebreaks s0))))
                   (Ticket.set_owner (Some (JStr (user_id u)))
                      (ticketModel E (body req)))))) /\
    store w' = <[Ticket.id t := t]> (store w).
Proof.
  unfold api_tickets.create. intros H Hr.
  destruct (isObject (body req)) eqn:Hobj; cbn [negb] in H.
  2:{ cbn in H. injection H as <-. cbn in Hr. discriminate Hr. }
  step H. apply lift_Ok_inv in Hstep as [Hsid ->].
  step H. apply lift_Ok_inv in Hstep as [Htags ->].
  step H. apply user_prop_Ok_inv in Hstep as (u & Hu & -> & ->).
  step H. apply js_replace_linebreaks_Ok_inv in Hstep as (s0 & Hissue & -> & ->).
  step H. apply save_Ok_inv in Hstep as [(e & He & -> & ->)|(Hsave & -> & ->)].
  { cbn in H. injection H as <-. cbn in Hr. discriminate Hr. }
  cbn in H. injection H as <-. cbn in Hr.
  injection Hr as <-.
  exists u, s0, a0. cbn in Hissue.
  repeat split; try assumption.
Qed.

(** C1: a run of [create] that answers with the success body has stored a
    ticket with exactly one history entry (action ['ticket:created'], owner
    the requester) and exactly one subscriber, the requester, who is also
    the owner of the ticket. *)
Theorem create_one_history_entry_one_subscriber
    (E : Env) (req : Request) (w w' : World) (t : Ticket.t) :
  api_tickets.create E req w = Ok tt w' ->
  response w' = Some (mkResponse 200 (created_body t)) ->
  exists u : User,
    user req = UserDoc u /\
    store w' !! Ticket.id t = Some t /\
    Ticket.owner t = Some (JStr (user_id u)) /\
    Ticket.history t =
      [HistoryItem.mk "ticket:created" "Ticket was created." (user_id u)] /\
    Ticket.subscribers t = [user_id u].
Proof.
  intros Hrun Hresp.
  destruct (create_success_inv E req w w' t Hrun Hresp)
    as (u & s0 & ptags & Hu & _ & _ & _ & _ & Ht & Hstore).
  exists u. split; [exact Hu|]. split.
  - rewrite Hstore. apply lookup_insert_eq.
  - rewrite Ht. cbn. repeat split.
Qed.

Lemma create_one_history_entry_one_subscriber_witness :
  exists u : User,
    user req_create_abc = UserDoc u /\
    store world_abc !! Ticket.id ticket_abc = Some ticket_abc /\
    Ticket.owner ticket_abc = Some (JStr (user_id u)) /\
    Ticket.history ticket_abc =
      [HistoryItem.mk "ticket:created" "Ticket was created." (user_id u)] /\
    Ticket.subscribers ticket_abc = [user_id u].
Proof.
  apply (create_one_history_entry_one_subscriber env0 req_create_abc world0
           world_abc ticket_abc).
  - vm_compute. reflexivity.
  - reflexivity.
Defined.

Lemma compact_nonempty (l : list string) :
  Forall (fun s => s <> "") (compact l).
Proof.
  unfold compact. induction l as [|s l IH]; cbn; [constructor|].
  destruct (String.eqb s "") eqn:Hs; cbn; [exact IH|].
  constructor; [|exact IH].
  intros ->. cbn in Hs. discriminate Hs.
Qed.

(** The example request of the specification carries no [issue]: the run
    throws and nothing is stored. *)
Example create_no_issue_throws :
  api_tickets.create env0 req_create_no_issue world0 =
  Threw (TypeError "Cannot read property 'replace' of undefined") world0.
Proof. vm_compute. reflexivity. Qed.

(** C6, as stated, fails: with the tags string ["a,a"] the stored ticket has
    the tags [["a"; "a"]], which is not a set; and the payload of the
    example, [{subject: "Subject", tags: "a,b,c"}], stores no ticket: the
    run throws and leaves the store empty. *)
Lemma create_tags_keep_duplicates :
  api_tickets.create env0 req_create_aa world0 = Ok tt world_aa /\
  response world_aa = Some (mkResponse 200 (created_body ticket_aa)) /\
  store world_aa !! "t1" = Some ticket_aa /\
  Ticket.tags ticket_aa = ["a"; "a"] /\
  ~ NoDup (Ticket.tags ticket_aa) /\
  field (body req_create_no_issue) "tags" = Some (JStr "a,b,c") /\
  api_tickets.create env0 req_create_no_issue world0 =
    Threw (TypeError "Cannot read property 'replace' of undefined") world0 /\
  store world0 = ∅.
Proof.
  split; [vm_compute; reflexivity|].
  split; [reflexivity|].
  split; [vm_compute; reflexivity|].
  split; [reflexivity|].
  split.
  { cbn. intros Hnd. apply NoDup_cons in Hnd as [Hnin _]. apply Hnin. left. }
  split; [vm_compute; reflexivity|].
  split; [vm_compute; reflexivity|].
  reflexivity.
Qed.

(** C6, amended: a run of [create] that answers with the success body has
    stored a ticket whose tags are the non-empty pieces, in order and with
    repetitions kept, of the cleaned tags string split at commas (no tags
    when the payload carries none); no tag is empty; the history has length
    1; the comments are those of the payload, none when it carries none.
    For the tags string ["a,b,c"] the tags are [["a"; "b"; "c"]]. *)
Theorem create_tags_split_and_compacted
    (E : Env) (req : Request) (w w' : World) (t : Ticket.t) :
  api_tickets.create E req w = Ok tt w' ->
  response w' = Some (mkResponse 200 (created_body t)) ->
  store w' !! Ticket.id t = Some t /\
  Ticket.tags t =
    match field (body req) "tags" with
    | None => []
    | Some j => compact (split "," (clean (makeString E j)))
    end /\
  Forall (fun s => s <> "") (Ticket.tags t) /\
  List.length (Ticket.history t) = 1%nat /\
  Ticket.comments t = seq_field (castComments E) (body req) "comments" /\
  (field (body req) "comments" = None -> Ticket.comments t = []) /\
  (field (body req) "tags" = Some (JStr "a,b,c") -> Ticket.tags t = ["a"; "b"; "c"]).
Proof.
  intros Hrun Hresp.
  destruct (create_success_inv E req w w' t Hrun Hresp)
    as (u & s0 & ptags & Hu & _ & Htags & _ & _ & Ht & Hstore).
  assert (Hfield : field (body req) "tags" = ptags).
  { unfold field. rewrite Htags. reflexivity. }
  assert (Htt : Ticket.tags t =
                match field (body req) "tags" with
                | None => []
                | Some j => compact (split "," (clean (makeString E j)))
                end).
  { rewrite Hfield, Ht. reflexivity. }
  assert (Hcomm : Ticket.comments t = seq_field (castComments E) (body req) "comments").
  { rewrite Ht. reflexivity. }
  split; [rewrite Hstore; apply lookup_insert_eq|].
  split; [exact Htt|].
  split.
  { rewrite Htt. destruct (field (body req) "tags"); [apply compact_nonempty|constructor]. }
  split; [rewrite Ht; reflexivity|].
  split; [exact Hcomm|].
  split.
  - intros Hnone. rewrite Hcomm. unfold seq_field. rewrite Hnone. reflexivity.
  - intros Habc. rewrite Htt, Habc. vm_compute. reflexivity.
Qed.

Lemma create_tags_split_and_compacted_witness :
  store world_abc !! Ticket.id ticket_abc = Some ticket_abc /\
  Ticket.tags ticket_abc =
    match field (body req_create_abc) "tags" with
    | None => []
    | Some j => compact (split "," (clean (makeString env0 j)))
    end /\
  Forall (fun s => s <> "") (Ticket.tags ticket_abc) /\
  List.length (Ticket.history ticket_abc) = 1%nat /\
  Ticket.comments ticket_abc = seq_field (castComments env0) (body req_create_abc) "comments" /\
  (field (body req_create_abc) "comments" = None -> Ticket.comments ticket_abc = []) /\
  (field (body req_create_abc) "tags" = Some (JStr "a,b,c") ->
   Ticket.tags ticket_abc = ["a"; "b"; "c"]).
Proof.
  apply (create_tags_split_and_compacted env0 req_create_abc world0 world_abc ticket_abc).
  - vm_compute. reflexivity.
  - reflexivity.
Defined.

(** How a run of [create] on an object body ends: it throws before the
    store is touched, or it reaches the save, which fails or succeeds. *)
Lemma create_object_body_cases (E : Env) (req : Request) (w : World) :
  isObject (body req) = true ->
  (exists e, api_tickets.create E req w = Threw e w) \/
  (exists t err,
      save_error E t = Some err /\
      api_tickets.create E req w =
        Ok tt (responded 400 (save_failed_body err)
                 (with_store (store w) (OpSaveFailed t err) w))) \/
  (exists t sid,
      save_error E t = None /\
      api_tickets.create E req w =
        Ok tt (responded 200 (created_body t)
                 (mkWorld (<[Ticket.id t := t]> (store w)) (oplog w ++ [OpSaved t])
                          (events w ++ [TicketCreated sid t]) (response w) (files w)))).
Proof.
  intros Hobj. unfold api_tickets.create. rewrite Hobj. cbn [negb].
  unfold mbind, M_bind.
  destruct (prop (body req) "socketId") as [e|sid]; cbn [lift throw mret M_ret].
  { left. exists e. reflexivity. }
  destruct (prop (body req) "tags") as [e|ptags]; cbn [lift throw mret M_ret].
  { left. exists e. reflexivity. }
  destruct (user req) as [| |u]; cbn [user_prop throw mret M_ret].
  1,2: left; eexists; reflexivity.
  destruct (Ticket.issue (Ticket.set_owner (Some (JStr (user_id u)))
                            (ticketModel E (body req)))) as [[| | |s0| |]|] eqn:Hi;
    cbn [js_replace_linebreaks throw mret M_ret].
  1-3,5-7: left; eexists; reflexivity.
  right. unfold save.
  match goal with |- context [save_error E ?t] => set (doc := t) end.
  destruct (save_error E doc) as [err|] eqn:Hs.
  - left. exists doc, err. split; [exact Hs|]. reflexivity.
  - right. exists doc. eexists. split; [exact Hs|]. reflexivity.
Qed.

(** C7: a [create] request whose body is not an object is answered with
    status 400 and [{success: false, error: 'Invalid Post Data'}]; a request
    that reaches the save (object body, a user, a string as issue of the
    document) and whose save fails with [err] is answered with status 400
    and [{success: false, error: err}], the store being as it was; one whose
    save succeeds is answered with [{success: true, ticket: t}], [t] being
    the saved ticket, now in the store. *)
Theorem create_response_contract (E : Env) (req : Request) (w : World) :
  (isObject (body req) = false ->
   api_tickets.create E req w = Ok tt (responded 400 invalid_post_data w)) /\
  (forall (u : User) (s0 : string) (err : Err),
     isObject (body req) = true ->
     user req = UserDoc u ->
     Ticket.issue (ticketModel E (body req)) = Some (JStr s0) ->
     save_error E (created_document E req u s0) = Some err ->
     api_tickets.create E req w =
       Ok tt (responded 400 (save_failed_body err)
                (with_store (store w)
                   (OpSaveFailed (created_document E req u s0) err) w))) /\
  (forall (u : User) (s0 : string),
     isObject (body req) = true ->
     user req = UserDoc u ->
     Ticket.issue (ticketModel E (body req)) = Some (JStr s0) ->
     save_error E (created_document E req u s0) = None ->
     exists (w' : World) (sid : json),
       api_tickets.create E req w = Ok tt w' /\
       response w' = Some (mkResponse 200 (created_body (created_document E req u s0))) /\
       store w' =
         <[Ticket.id (created_document E req u s0) := created_document E req u s0]>
           (store w) /\
       store w' !! Ticket.id (created_document E req u s0) =
         Some (created_document E req u s0) /\
       events w' = (events w ++ [TicketCreated sid (created_document E req u s0)])%list).
Proof.
  split; [|split].
  - intros Hobj. unfold api_tickets.create. rewrite Hobj. reflexivity.
  - intros u s0 err Hobj Hu Hissue Hsave.
    assert (Hprop : forall k, prop (body req) k = inr (field (body req) k)).
    { intros k. unfold field.
      destruct (body req) as [[| | | | |]|]; cbn in Hobj; try discriminate Hobj;
        reflexivity. }
    unfold api_tickets.create. rewrite Hobj. cbn [negb].
    unfold mbind, M_bind. rewrite !Hprop, Hu. cbn [lift user_prop mret M_ret].
    change (Ticket.issue (Ticket.set_owner _ (ticketModel E (body req))))
      with (Ticket.issue (ticketModel E (body req))).
    rewrite Hissue. cbn [js_replace_linebreaks mret M_ret].
    unfold save.
    change (Ticket.set_subscribers _ _) with (created_document E req u s0).
    rewrite Hsave. reflexivity.
  - intros u s0 Hobj Hu Hissue Hsave.
    assert (Hprop : forall k, prop (body req) k = inr (field (body req) k)).
    { intros k. unfold field.
      destruct (body req) as [[| | | | |]|]; cbn in Hobj; try discriminate Hobj;
        reflexivity. }
    unfold api_tickets.create. rewrite Hobj. cbn [negb].
    unfold mbind, M_bind. rewrite !Hprop, Hu. cbn [lift user_prop mret M_ret].
    change (Ticket.issue (Ticket.set_owner _ (ticketModel E (body req))))
      with (Ticket.issue (ticketModel E (body req))).
    rewrite Hissue. cbn [js_replace_linebreaks mret M_ret].
    unfold save.
    change (Ticket.set_subscribers _ _) with (created_document E req u s0).
    rewrite Hsave. cbn.
    eexists _, _. split; [reflexivity|]. cbn.
    split; [reflexivity|]. split; [reflexivity|].
    split; [apply lookup_insert_eq|reflexivity].
Qed.

Lemma create_response_contract_witness :
  api_tickets.create env0 req_create_string_body world0 =
    Ok tt (responded 400 invalid_post_data world0) /\
  api_tickets.create env_save_fails req_create_abc world0 =
    Ok tt (responded 400 (save_failed_body (mkErr "save failed"))
             (with_store (store world0)
                (OpSaveFailed (created_document env_save_fails req_create_abc alice "Issue")
                              (mkErr "save failed")) world0)) /\
  (exists (w' : World) (sid : json),
     api_tickets.create env0 req_create_abc world0 = Ok tt w' /\
     response w' =
       Some (mkResponse 200 (created_body (created_document env0 req_create_abc alice "Issue"))) /\
     store w' =
       <[Ticket.id (created_document env0 req_create_abc alice "Issue") :=
           created_document env0 req_create_abc alice "Issue"]> (store world0) /\
     store w' !! Ticket.id (created_document env0 req_create_abc alice "Issue") =
       Some (created_document env0 req_create_abc alice "Issue") /\
     events w' =
       (events world0 ++
          [TicketCreated sid (created_document env0 req_create_abc alice "Issue")])%list) /\
  created_document env0 req_create_abc alice "Issue" = ticket_abc.
Proof.
  split; [|split; [|split]].
  - apply (create_response_contract env0 req_create_string_body world0). reflexivity.
  - apply (create_response_contract env_save_fails req_create_abc world0).
    + reflexivity.
    + reflexivity.
    + vm_compute. reflexivity.
    + reflexivity.
  - apply (create_response_contract env0 req_create_abc world0 ).
    + reflexivity.
    + reflexivity.
    + vm_compute. reflexivity.
    + reflexivity.
  - vm_compute. reflexivity.
Defined.

(** The three answers of [create] on concrete requests. *)
Example create_string_body_400 :
  api_tickets.create env0 req_create_string_body world0 =
  Ok tt (responded 400 invalid_post_data world0).
Proof. reflexivity. Qed.

Example create_save_fails_400 :
  response (world_of (api_tickets.create env_save_fails req_create_abc world0)) =
  Some (mkResponse 400 (save_failed_body (mkErr "save failed"))).
Proof. vm_compute. reflexivity. Qed.

(** C10: on an object payload without [issue], [create] does not answer: it
    throws, with the world as it was (nothing persisted, no response, the
    400 body included); when the request carries a user, the exception is
    the [TypeError] of the line-break replacement applied to [undefined]. *)
Theorem create_without_issue_throws (E : Env) (req : Request) (w : World) :
  isObject (body req) = true ->
  field (body req) "issue" = None ->
  (exists e, api_tickets.create E req w = Threw e w) /\
  (forall u, user req = UserDoc u ->
     api_tickets.create E req w =
       Threw (TypeError "Cannot read property 'replace' of undefined") w).
Proof.
  intros Hobj Hissue.
  assert (Hprop : forall k, exists v, prop (body req) k = inr v).
  { intros k. destruct (body req) as [[| | | | |]|]; cbn in Hobj; try discriminate Hobj;
      eexists; reflexivity. }
  unfold api_tickets.create. rewrite Hobj. cbn [negb].
  destruct (Hprop "socketId") as [sid Hsid].
  destruct (Hprop "tags") as [ptags Htags].
  unfold mbind, M_bind. rewrite Hsid, Htags. cbn [lift mret M_ret].
  destruct (user req) as [| |u]; cbn [user_prop throw mret M_ret].
  - split; [eexists; reflexivity|]. intros u Hu. discriminate Hu.
  - split; [eexists; reflexivity|]. intros u Hu. discriminate Hu.
  - cbn [Ticket.issue Ticket.set_owner ticketModel]. rewrite Hissue.
    cbn [js_replace_linebreaks throw].
    split; [eexists; reflexivity|]. intros u' _. reflexivity.
Qed.

Lemma create_without_issue_throws_witness :
  (exists e, api_tickets.create env0 req_create_no_issue world0 = Threw e world0) /\
  (forall u, user req_create_no_issue = UserDoc u ->
     api_tickets.create env0 req_create_no_issue world0 =
       Threw (TypeError "Cannot read property 'replace' of undefined") world0).
Proof.
  apply (create_without_issue_throws env0 req_create_no_issue world0).
  - reflexivity.
  - vm_compute. reflexivity.
Defined.

(** ** Update *)

(** C9: when [req.user] is [undefined] or [null], [update] returns with the
    world as it was: no store operation, no ticket changed, no event, no
    response. *)
Theorem update_without_user_does_nothing (E : Env) (req : Request) (w : World) :
  user req = UserUndefined \/ user req = UserNull ->
  api_tickets.update E req w = Ok tt w /\
  oplog (world_of (api_tickets.update E req w)) = oplog w /\
  store (world_of (api_tickets.update E req w)) = store w /\
  response (world_of (api_tickets.update E req w)) = response w.
Proof.
  intros Hu.
  assert (H : api_tickets.update E req w = Ok tt w).
  { unfold api_tickets.update. destruct Hu as [-> | ->]; reflexivity. }
  rewrite H. repeat split.
Qed.

Lemma update_without_user_does_nothing_witness :
  api_tickets.update env0 req_update_no_user world_open = Ok tt world_open /\
  oplog (world_of (api_tickets.update env0 req_update_no_user world_open)) = oplog world_open /\
  store (world_of (api_tickets.update env0 req_update_no_user world_open)) = store world_open /\
  response (world_of (api_tickets.update env0 req_update_no_user world_open)) =
    response world_open.
Proof.
  apply (update_without_user_does_nothing env0 req_update_no_user world_open).
  left. reflexivity.
Defined.

Example update_status_runs :
  api_tickets.update env0 req_update_status world_open = Ok tt world_open_status1.
Proof. vm_compute. reflexivity. Qed.

Lemma assign_if_defined_Ok_inv (reqTicket : value) (k : string)
    (set : value -> Ticket.t -> Ticket.t) (ticket r : option Ticket.t) (w w1 : World) :
  api_tickets.assign_if_defined reqTicket k set ticket w = Ok r w1 ->
  r = applied reqTicket k set <$> ticket /\ w1 = w.
Proof.
  unfold api_tickets.assign_if_defined, applied, field. intros H.
  step H. apply lift_Ok_inv in Hstep as [-> ->].
  destruct a as [j|]; destruct ticket as [t|]; cbn in H; try discriminate H;
    injection H as <- <-; split; reflexivity.
Qed.

Lemma world_open_store_ok : store_ok world_open.
Proof.
  intros i t H. cbn in H.
  apply lookup_singleton_Some in H as [<- <-]. reflexivity.
Qed.

Lemma assign_if_defined_world (reqTicket : value) (k : string)
    (set : value -> Ticket.t -> Ticket.t) (ticket : option Ticket.t) (w : World) :
  (exists r, api_tickets.assign_if_defined reqTicket k set ticket w = Ok r w) \/
  (exists msg, api_tickets.assign_if_defined reqTicket k set ticket w =
               Threw (TypeError msg) w).
Proof.
  unfold api_tickets.assign_if_defined, mbind, M_bind.
  destruct reqTicket as [[| | | | |m]|]; cbn;
    try (left; eexists; reflexivity); try (right; eexists; reflexivity).
  destruct (m !! k); [|left; eexists; reflexivity].
  destruct ticket; [left|right]; eexists; reflexivity.
Qed.

(** On a body whose properties can be read, the assignment goes through. *)
Lemma assign_if_defined_readable (j : json) (k : string)
    (set : value -> Ticket.t -> Ticket.t) (t : Ticket.t) (w : World) :
  j <> JNull ->
  api_tickets.assign_if_defined (Some j) k set (Some t) w =
    Ok (Some (applied (Some j) k set t)) w.
Proof.
  intros Hj. unfold api_tickets.assign_if_defined, applied, field, mbind, M_bind.
  destruct j as [| | | | |m]; try congruence; cbn; try reflexivity.
  destruct (m !! k); reflexivity.
Qed.

Lemma updated_ticket_frame (reqTicket : value) (t : Ticket.t) :
  Ticket.id (updated_ticket reqTicket t) = Ticket.id t /\
  (field reqTicket "status" = None ->
   Ticket.status (updated_ticket reqTicket t) = Ticket.status t) /\
  (field reqTicket "group" = None ->
   Ticket.group (updated_ticket reqTicket t) = Ticket.group t) /\
  (field reqTicket "closedDate" = None ->
   Ticket.closedDate (updated_ticket reqTicket t) = Ticket.closedDate t) /\
  (forall v, field reqTicket "status" = Some v ->
             Ticket.status (updated_ticket reqTicket t) = Some v) /\
  (forall v, field reqTicket "group" = Some v ->
             Ticket.group (updated_ticket reqTicket t) = Some v) /\
  (forall v, field reqTicket "closedDate" = Some v ->
             Ticket.closedDate (updated_ticket reqTicket t) = Some v).
Proof.
  unfold updated_ticket, applied.
  destruct (field reqTicket "status"), (field reqTicket "group"),
    (field reqTicket "closedDate"); cbn; repeat split; intros; congruence.
Qed.

(** Every run of [update] leaves the store as it was or replaces the ticket
    found under the identifier by its update. *)
Lemma update_store_cases (E : Env) (req : Request) (w : World) (r : Res unit) :
  api_tickets.update E req w = r ->
  store (world_of r) = store w \/
  exists (oId : string) (t : Ticket.t),
    params req !! "id" = Some oId /\
    store w !! oId = Some t /\
    store (world_of r) =
      <[Ticket.id (updated_ticket (body req) t) := updated_ticket (body req) t]> (store w).
Proof.
  intros Hr. unfold api_tickets.update in Hr.
  destruct (user req) as [| |u]; [subst r; left; reflexivity|subst r; left; reflexivity|].
  destruct (params req !! "id") as [oId|] eqn:Hid; cbn [isUndefined] in Hr;
    [|subst r; left; reflexivity].
  unfold mbind at 1, M_bind at 1, getTicketById in Hr.
  destruct (find_error E (Some oId)) as [e|]; [subst r; left; reflexivity|].
  cbn [mbind option_bind] in Hr.
  set (w1 := with_store _ _ w) in Hr.
  assert (Hw1 : store w1 = store w) by reflexivity.
  clearbody w1.
  unfold mbind, M_bind in Hr.
  destruct (assign_if_defined_world (body req) "status" Ticket.set_status
              (store w !! oId) w1) as [[r1 H1]|[e H1]]; rewrite H1 in Hr;
    [|subst r; left; exact Hw1].
  apply assign_if_defined_Ok_inv in H1 as [-> _].
  destruct (assign_if_defined_world (body req) "group" Ticket.set_group
              (applied (body req) "status" Ticket.set_status <$> store w !! oId) w1)
    as [[r2 H2]|[e H2]]; rewrite H2 in Hr; [|subst r; left; exact Hw1].
  apply assign_if_defined_Ok_inv in H2 as [-> _].
  destruct (assign_if_defined_world (body req) "closedDate" Ticket.set_closedDate
              (applied (body req) "group" Ticket.set_group <$>
                 (applied (body req) "status" Ticket.set_status <$> store w !! oId)) w1)
    as [[r3 H3]|[e H3]]; rewrite H3 in Hr; [|subst r; left; exact Hw1].
  apply assign_if_defined_Ok_inv in H3 as [-> _].
  destruct (store w !! oId) as [t|] eqn:Hlook; cbn [fmap option_fmap option_map] in Hr;
    [|subst r; left; exact Hw1].
  unfold save in Hr.
  change (applied (body req) "closedDate" Ticket.set_closedDate
            (applied (body req) "group" Ticket.set_group
               (applied (body req) "status" Ticket.set_status t)))
    with (updated_ticket (body req) t) in Hr.
  destruct (save_error E (updated_ticket (body req) t)) as [e|]; subst r.
  - left. exact Hw1.
  - right. exists oId, t. split; [reflexivity|]. split; [exact Hlook|].
    cbn. rewrite Hw1. reflexivity.
Qed.

(** C3: whatever the run of [update] (answered or not, saved or not), on a
    store that keeps each ticket under its identifier every ticket stays in
    the store and keeps each of [status], [group] and [closedDate] that the
    request body does not carry, the ticket being as it was or the found
    ticket with the carried fields replaced, and no ticket appears; so a
    body with [status] and without [group] and [closedDate] leaves [group]
    and [closedDate] of every ticket as they were.  When the request has a
    user, an identifier under which the store finds a ticket, a body whose
    properties can be read, and the save succeeds, the run answers with the
    saved ticket and stores it: the found ticket with, for each of the three
    fields, the value of the body when the body carries the field. *)
Theorem update_applies_only_present_fields (E : Env) (req : Request) (w : World) :
  store_ok w ->
  (forall (i : string) (t : Ticket.t),
     store w !! i = Some t ->
     exists t' : Ticket.t,
       store (world_of (api_tickets.update E req w)) !! i = Some t' /\
       (t' = t \/ t' = updated_ticket (body req) t) /\
       (field (body req) "status" = None -> Ticket.status t' = Ticket.status t) /\
       (field (body req) "group" = None -> Ticket.group t' = Ticket.group t) /\
       (field (body req) "closedDate" = None ->
        Ticket.closedDate t' = Ticket.closedDate t)) /\
  (forall i : string,
     store w !! i = None ->
     store (world_of (api_tickets.update E req w)) !! i = None) /\
  (forall (u : User) (oId : string) (t : Ticket.t) (j : json),
     user req = UserDoc u ->
     params req !! "id" = Some oId ->
     find_error E (Some oId) = None ->
     store w !! oId = Some t ->
     body req = Some j -> j <> JNull ->
     save_error E (updated_ticket (body req) t) = None ->
     (exists w' : World,
        api_tickets.update E req w = Ok tt w' /\
        response w' = Some (mkResponse 200 (JsonTicket (updated_ticket (body req) t))) /\
        store w' = <[oId := updated_ticket (body req) t]> (store w) /\
        events w' = (events w ++ [TicketUpdated (updated_ticket (body req) t)])%list) /\
     (forall v, field (body req) "status" = Some v ->
                Ticket.status (updated_ticket (body req) t) = Some v) /\
     (forall v, field (body req) "group" = Some v ->
                Ticket.group (updated_ticket (body req) t) = Some v) /\
     (forall v, field (body req) "closedDate" = Some v ->
                Ticket.closedDate (updated_ticket (body req) t) = Some v)).
Proof.
  intros Hok. split; [|split].
  - intros i t Hi.
    destruct (update_store_cases E req w _ eq_refl) as [-> | (oId & t0 & Hid & Hlook & ->)].
    + exists t. split; [exact Hi|]. split; [left; reflexivity|]. repeat split.
    + destruct (updated_ticket_frame (body req) t0) as (Hidt & Hs & Hg & Hc & _).
      rewrite Hidt, (Hok oId t0 Hlook).
      destruct (decide (i = oId)) as [->|Hne].
      * rewrite Hlook in Hi. injection Hi as <-.
        exists (updated_ticket (body req) t0).
        split; [apply lookup_insert_eq|]. split; [right; reflexivity|].
        split; [exact Hs|]. split; [exact Hg|exact Hc].
      * exists t. split; [rewrite lookup_insert_ne by congruence; exact Hi|].
        split; [left; reflexivity|]. repeat split.
  - intros i Hi.
    destruct (update_store_cases E req w _ eq_refl) as [-> | (oId & t0 & Hid & Hlook & ->)].
    + exact Hi.
    + destruct (updated_ticket_frame (body req) t0) as (Hidt & _).
      rewrite Hidt, (Hok oId t0 Hlook).
      rewrite lookup_insert_ne by congruence. exact Hi.
  - intros u oId t j Hu Hid Hfind Hlook Hbody Hj Hsave.
    destruct (updated_ticket_frame (body req) t) as (Hidt & _ & _ & _ & Hs & Hg & Hc).
    split; [|split; [exact Hs|split; [exact Hg|exact Hc]]].
    unfold api_tickets.update. rewrite Hu, Hid. cbn [isUndefined].
    unfold mbind, M_bind, getTicketById. rewrite Hfind. cbn [mbind option_bind].
    rewrite Hlook. rewrite Hbody in *.
    rewrite !assign_if_defined_readable by exact Hj.
    unfold save.
    change (applied (Some j) "closedDate" Ticket.set_closedDate
              (applied (Some j) "group" Ticket.set_group
                 (applied (Some j) "status" Ticket.set_status t)))
      with (updated_ticket (Some j) t).
    rewrite Hsave. eexists. split; [reflexivity|]. cbn.
    rewrite Hidt, (Hok oId t Hlook). repeat split.
Qed.

Lemma update_applies_only_present_fields_witness :
  api_tickets.update env0 req_update_status world_open = Ok tt world_open_status1 /\
  updated_ticket (body req_update_status) ticket_open = ticket_open_status1 /\
  Ticket.status ticket_open_status1 = Some (JNum 1) /\
  (exists t' : Ticket.t,
     store (world_of (api_tickets.update env0 req_update_status world_open)) !! "t1"
       = Some t' /\
     Ticket.group t' = Ticket.group ticket_open /\
     Ticket.closedDate t' = Ticket.closedDate ticket_open) /\
  (exists t' : Ticket.t,
     store (world_of (api_tickets.update env_save_fails req_update_status world_open)) !! "t1"
       = Some t' /\
     Ticket.group t' = Ticket.group ticket_open /\
     Ticket.closedDate t' = Ticket.closedDate ticket_open).
Proof.
  destruct (update_applies_only_present_fields env0 req_update_status world_open
              world_open_store_ok) as (Hframe & _ & Hrun).
  assert (Hlook : store world_open !! "t1" = Some ticket_open)
    by (vm_compute; reflexivity).
  assert (Hj : JObj (list_to_map [("status", JNum 1)]) <> JNull) by discriminate.
  destruct (Hrun alice "t1" ticket_open (JObj (list_to_map [("status", JNum 1)]))
              eq_refl eq_refl eq_refl Hlook eq_refl Hj eq_refl)
    as ((w' & Hw' & _) & Hstatus & _).
  split; [vm_compute; reflexivity|].
  split; [vm_compute; reflexivity|].
  split; [apply Hstatus; vm_compute; reflexivity|].
  split.
  - destruct (Hframe "t1" ticket_open) as (t' & Ht' & _ & _ & Hg & Hc);
      [vm_compute; reflexivity|].
    exists t'. split; [exact Ht'|].
    split; [apply Hg|apply Hc]; vm_compute; reflexivity.
  - destruct (update_applies_only_present_fields env_save_fails req_update_status
                world_open world_open_store_ok) as (Hframe' & _ & _).
    destruct (Hframe' "t1" ticket_open) as (t' & Ht' & _ & _ & Hg & Hc);
      [vm_compute; reflexivity|].
    exists t'. split; [exact Ht'|].
    split; [apply Hg|apply Hc]; vm_compute; reflexivity.
Defined.

(** ** Lookup by uid *)

(** C4: when the [uid] parameter is missing, and when the store yields no
    record (and no error) for the uid, [single] answers with status 200 and
    the body [{success: false, error: 'Invalid Ticket'}], and the store is
    as it was. *)
Theorem single_invalid_ticket_is_200 (E : Env) (req : Request) (w : World) :
  params req !! "uid" = None \/
  (exists uid w1, params req !! "uid" = Some uid /\
                  getTicketByUid E uid w = Ok (inr None) w1) ->
  exists w',
    api_tickets.single E req w = Ok tt w' /\
    response w' = Some (mkResponse 200 invalid_ticket) /\
    store w' = store w.
Proof.
  unfold api_tickets.single. intros [Hnone|(uid & w1 & Huid & Hget)].
  - rewrite Hnone. eexists. split; [reflexivity|]. split; reflexivity.
  - rewrite Huid. unfold mbind, M_bind. rewrite Hget.
    eexists. split; [reflexivity|]. split; [reflexivity|].
    unfold getTicketByUid in Hget. injection Hget as _ <-. reflexivity.
Qed.

Lemma single_invalid_ticket_is_200_witness :
  exists w',
    api_tickets.single env0 req_single_unknown world_open = Ok tt w' /\
    response w' = Some (mkResponse 200 invalid_ticket) /\
    store w' = store world_open.
Proof.
  apply (single_invalid_ticket_is_200 env0 req_single_unknown world_open).
  right. exists "1001". eexists. split; [reflexivity|].
  vm_compute. reflexivity.
Defined.

Example single_no_uid_runs :
  api_tickets.single env0 req_single_no_uid world_open =
  Ok tt (responded 200 invalid_ticket world_open).
Proof. reflexivity. Qed.

(** ** Comments *)

Example postComment_runs :
  api_tickets.postComment env0 req_comment world_open = Ok tt world_commented.
Proof. vm_compute. reflexivity. Qed.

(** C2, as stated, fails: the ticket was last updated at 2000, the clock
    reads 1000 when the comment is posted, and the stored ticket is then
    updated at 1000, before its previous value. *)
Lemma postComment_updated_can_decrease :
  api_tickets.postComment env0 req_comment world_open = Ok tt world_commented /\
  response world_commented = Some (mkResponse 200 (comment_body ticket_commented)) /\
  store world_open !! "t1" = Some ticket_open /\
  store world_commented !! "t1" = Some ticket_commented /\
  Ticket.updated ticket_open = Some 2000 /\
  Ticket.updated ticket_commented = Some 1000 /\
  ~ (2000 <= 1000).
Proof.
  split; [vm_compute; reflexivity|].
  split; [reflexivity|].
  split; [vm_compute; reflexivity|].
  split; [vm_compute; reflexivity|].
  split; [reflexivity|].
  split; [reflexivity|].
  lia.
Qed.

(** C2, amended: a run of [postComment] that answers with the ticket has
    stored the ticket found under the identifier with exactly one comment
    and exactly one history entry appended, and with [updated] set to the
    reading of the clock; [updated] is therefore at least its previous value
    whenever the clock does not read less than that value. *)
Theorem postComment_appends_comment_and_history
    (E : Env) (req : Request) (w w' : World) (t' : Ticket.t) :
  response w = None ->
  api_tickets.postComment E req w = Ok tt w' ->
  response w' = Some (mkResponse 200 (comment_body t')) ->
  exists (ticketId : json) (t : Ticket.t) (c : Comment.t) (u : User),
    field (body req) "_id" = Some ticketId /\
    store w !! key E ticketId = Some t /\
    store w' !! Ticket.id t' = Some t' /\
    Ticket.comments t' = (Ticket.comments t ++ [c])%list /\
    Ticket.history t' = (Ticket.history t ++ [comment_entry (user_id u)])%list /\
    List.length (Ticket.comments t') = S (List.length (Ticket.comments t)) /\
    List.length (Ticket.history t') = S (List.length (Ticket.history t)) /\
    Ticket.updated t' = Some (now E) /\
    (forall p, Ticket.updated t = Some p -> p <= now E ->
               exists q, Ticket.updated t' = Some q /\ p <= q).
Proof.
  intros Hnone H Hresp. unfold api_tickets.postComment in H.
  destruct (getUserByAccessToken E (headers req !! "accesstoken")) as [e|[u|]].
  1,3: cbn in H; injection H as <-; cbn in Hresp; discriminate Hresp.
  step H. apply lift_Ok_inv in Hstep as [Hc ->].
  step H. apply lift_Ok_inv in Hstep as [Ho ->].
  step H. apply lift_Ok_inv in Hstep as [Hi ->].
  destruct a1 as [ticketId|].
  2:{ cbn in H. injection H as <-. cbn in Hresp. discriminate Hresp. }
  step H. unfold getTicketById in Hstep. injection Hstep as <- <-.
  destruct (find_error E (Some (key E ticketId))) as [e|].
  { cbn in H. injection H as <-. cbn in Hresp. discriminate Hresp. }
  destruct a as [cj|].
  2:{ cbn in H. injection H as <-. cbn in Hresp. discriminate Hresp. }
  step H. apply js_replace_linebreaks_Ok_inv in Hstep as (s0 & Hs0 & -> & ->).
  cbn [mbind option_bind] in H.
  destruct (store w !! key E ticketId) as [t|] eqn:Hlook; [|discriminate H].
  step H. apply save_Ok_inv in Hstep as [(e & He & -> & ->)|(Hsave & -> & ->)].
  { cbn in H. injection H as <-. cbn in Hresp. discriminate Hresp. }
  match type of H with context [populate_error E ?d] =>
    destruct (populate_error E d) as [e|] end.
  { cbn in H. injection H as <-. cbn in Hresp. rewrite Hnone in Hresp. discriminate Hresp. }
  cbn in H. injection H as <-. cbn in Hresp. injection Hresp as <-.
  exists ticketId, t. eexists. exists u.
  split; [unfold field; rewrite Hi; reflexivity|].
  split; [exact Hlook|].
  split; [cbn; apply lookup_insert_eq|].
  split; [reflexivity|].
  split; [reflexivity|].
  split; [cbn; rewrite length_app; cbn; lia|].
  split; [cbn; rewrite length_app; cbn; lia|].
  split; [reflexivity|].
  intros p _ Hle. exists (now E). split; [reflexivity|exact Hle].
Qed.

Lemma postComment_appends_comment_and_history_witness :
  exists (ticketId : json) (t : Ticket.t) (c : Comment.t) (u : User),
    field (body req_comment) "_id" = Some ticketId /\
    store world_open !! key env0 ticketId = Some t /\
    store world_commented !! Ticket.id ticket_commented = Some ticket_commented /\
    Ticket.comments ticket_commented = (Ticket.comments t ++ [c])%list /\
    Ticket.history ticket_commented =
      (Ticket.history t ++ [comment_entry (user_id u)])%list /\
    List.length (Ticket.comments ticket_commented) = S (List.length (Ticket.comments t)) /\
    List.length (Ticket.history ticket_commented) = S (List.length (Ticket.history t)) /\
    Ticket.updated ticket_commented = Some (now env0) /\
    (forall p, Ticket.updated t = Some p -> p <= now env0 ->
               exists q, Ticket.updated ticket_commented = Some q /\ p <= q).
Proof.
  apply (postComment_appends_comment_and_history env0 req_comment world_open
           world_commented ticket_commented).
  - reflexivity.
  - vm_compute. reflexivity.
  - reflexivity.
Defined.

(** ** Attachments *)

(** C5, as stated, fails: the requester lacks the permission
    ['tickets:removeAttachment'] and the request carries no ticket id; the
    answer is 400, not 401. *)
Lemma removeAttachment_missing_id_before_permission :
  canThis env0 (role bob) "tickets:removeAttachment" = false /\
  user req_remove_no_tid_bob = UserDoc bob /\
  params req_remove_no_tid_bob !! "tid" = None /\
  api_tickets.removeAttachment env0 req_remove_no_tid_bob world_open =
    Ok tt (responded 400 (api_tickets.error_body "Invalid Attachment") world_open) /\
  response (world_of (api_tickets.removeAttachment env0 req_remove_no_tid_bob world_open))
    <> Some invalid_permissions.
Proof.
  split; [reflexivity|].
  split; [reflexivity|].
  split; [reflexivity|].
  split; [reflexivity|].
  cbn. intros H. discriminate H.
Qed.

(** With both ids, a permitted user and a save that fails, the answer is 401
    with the body of the failed removal. *)
Example removeAttachment_save_fails_401 :
  canThis env_save_fails (role alice) "tickets:removeAttachment" = true /\
  response (world_of (api_tickets.removeAttachment env_save_fails req_remove_alice world_open))
  = Some (mkResponse 401 (api_tickets.error_body "Invalid Request.")).
Proof. split; [reflexivity|]. vm_compute. reflexivity. Qed.

Lemma removeAttachment_permission_denied_inv (E : Env) (req : Request) (w : World) :
  response w = None ->
  response (world_of (api_tickets.removeAttachment E req w)) = Some invalid_permissions ->
  exists tid aid u,
    params req !! "tid" = Some tid /\ params req !! "aid" = Some aid /\
    user req = UserDoc u /\
    canThis E (role u) "tickets:removeAttachment" = false.
Proof.
  intros Hnone. unfold api_tickets.removeAttachment.
  destruct (params req !! "tid") as [tid|]; [|intros H; discriminate H].
  destruct (params req !! "aid") as [aid|]; [|intros H; discriminate H].
  destruct (user req) as [| |u]; [intros H; discriminate H| |].
  { cbn. rewrite Hnone. intros H. discriminate H. }
  destruct (canThis E (role u) "tickets:removeAttachment") eqn:Hcan; cbn [negb].
  2:{ intros _. exists tid, aid, u. repeat split. exact Hcan. }
  unfold mbind, M_bind, getTicketById.
  destruct (find_error E (Some tid)) as [e|]; [intros H; discriminate H|].
  cbn [mbind option_bind].
  destruct (store w !! tid) as [t|]; [|cbn; rewrite Hnone; intros H; discriminate H].
  destruct (Ticket_removeAttachment E t (user_id u) aid) as [e|t1];
    [intros H; discriminate H|].
  destruct (getAttachment t aid) as [a|]; [|cbn; rewrite Hnone; intros H; discriminate H].
  unfold unlink_if_exists, save.
  destruct (bool_decide _); [destruct (unlink_error E _)|];
    try destruct (save_error E t1);
    cbn; try rewrite Hnone; intros H; discriminate H.
Qed.

(** C5, amended: [removeAttachment] answers 401 ['Invalid Permissions']
    exactly when both ids are present and the user attached to the request
    lacks the permission ['tickets:removeAttachment']; it answers 400 when
    an id is missing, when no user is attached, and, for a user with the
    permission, when the lookup of the ticket fails or the removal of the
    attachment fails. *)
Theorem removeAttachment_error_statuses (E : Env) (req : Request) (w : World) :
  response w = None ->
  (response (world_of (api_tickets.removeAttachment E req w)) = Some invalid_permissions <->
   exists tid aid u,
     params req !! "tid" = Some tid /\ params req !! "aid" = Some aid /\
     user req = UserDoc u /\
     canThis E (role u) "tickets:removeAttachment" = false) /\
  (params req !! "tid" = None \/ params req !! "aid" = None ->
   api_tickets.removeAttachment E req w =
     Ok tt (responded 400 (api_tickets.error_body "Invalid Attachment") w)) /\
  (forall tid aid,
     params req !! "tid" = Some tid -> params req !! "aid" = Some aid ->
     user req = UserUndefined ->
     api_tickets.removeAttachment E req w =
       Ok tt (responded 400 (api_tickets.error_body "Invalid User Auth.") w)) /\
  (forall tid aid u,
     params req !! "tid" = Some tid -> params req !! "aid" = Some aid ->
     user req = UserDoc u ->
     canThis E (role u) "tickets:removeAttachment" = true ->
     (forall e, find_error E (Some tid) = Some e ->
        api_tickets.removeAttachment E req w =
          Ok tt (responded 400 (Send (RStr "Invalid Ticket Id"))
                   (with_store (store w) (OpFind tid) w))) /\
     (forall t e,
        find_error E (Some tid) = None -> store w !! tid = Some t ->
        remove_error E t aid = Some e ->
        api_tickets.removeAttachment E req w =
          Ok tt (responded 400 (api_tickets.error_body "Invalid Request.")
                   (with_store (store w) (OpFind tid) w)))).
Proof.
  intros Hnone. split; [split|].
  - apply removeAttachment_permission_denied_inv. exact Hnone.
  - intros (tid & aid & u & Ht & Ha & Hu & Hcan).
    unfold api_tickets.removeAttachment. rewrite Ht, Ha, Hu, Hcan. reflexivity.
  - split; [|split].
    + unfold api_tickets.removeAttachment. intros [-> | ->]; [reflexivity|].
      destruct (params req !! "tid"); reflexivity.
    + intros tid aid Ht Ha Hu.
      unfold api_tickets.removeAttachment. rewrite Ht, Ha, Hu. reflexivity.
    + intros tid aid u Ht Ha Hu Hcan. split.
      * intros e He. unfold api_tickets.removeAttachment.
        rewrite Ht, Ha, Hu, Hcan. cbn [negb].
        unfold mbind, M_bind, getTicketById. rewrite He. reflexivity.
      * intros t e He Hlook Hrem. unfold api_tickets.removeAttachment.
        rewrite Ht, Ha, Hu, Hcan. cbn [negb].
        unfold mbind, M_bind, getTicketById. rewrite He. cbn [mbind option_bind].
        rewrite Hlook. unfold Ticket_removeAttachment. rewrite Hrem. reflexivity.
Qed.

Lemma removeAttachment_error_statuses_witness :
  response (world_of (api_tickets.removeAttachment env0 req_remove_bob world_open))
    = Some invalid_permissions.
Proof.
  apply (removeAttachment_error_statuses env0 req_remove_bob world_open);
    [reflexivity|].
  exists "t1", "a1", bob. repeat split.
Defined.

(** ** Subscriptions *)

Example subscribe_then_unsubscribe_runs :
  api_tickets.subscribe env0 (req_subscribe true) world_open = Ok tt world_subscribed /\
  api_tickets.subscribe env0 (req_subscribe false) world_subscribed = Ok tt world_unsubscribed.
Proof. split; vm_compute; reflexivity. Qed.

(** C8, as stated, fails: [u1] is the subscriber of the ticket; after
    [subscribe: true] and then [subscribe: false] for [u1], both answered
    with success, the ticket has no subscriber. *)
Lemma subscribe_then_unsubscribe_removes_member :
  store world_open !! "t1" = Some ticket_open /\
  api_tickets.subscribe env0 (req_subscribe true) world_open = Ok tt world_subscribed /\
  api_tickets.subscribe env0 (req_subscribe false) world_subscribed = Ok tt world_unsubscribed /\
  store world_unsubscribed !! "t1" = Some ticket_unsubscribed /\
  ("u1" ∈ Ticket.subscribers ticket_open) /\
  ("u1" ∉ Ticket.subscribers ticket_unsubscribed) /\
  ~ same_subscribers ticket_unsubscribed ticket_open.
Proof.
  split; [vm_compute; reflexivity|].
  split; [vm_compute; reflexivity|].
  split; [vm_compute; reflexivity|].
  split; [vm_compute; reflexivity|].
  assert (Hin : "u1" ∈ Ticket.subscribers ticket_open) by (cbn; left).
  assert (Hnin : "u1" ∉ Ticket.subscribers ticket_unsubscribed).
  { cbn. intros H. inversion H. }
  split; [exact Hin|]. split; [exact Hnin|].
  intros Hsame. apply Hnin, Hsame, Hin.
Qed.

Lemma addSubscriber_id (E : Env) (t : Ticket.t) (u : json) :
  Ticket.id (addSubscriber E t u) = Ticket.id t.
Proof. unfold addSubscriber. destruct (bool_decide _); reflexivity. Qed.

Lemma elem_of_addSubscriber (E : Env) (t : Ticket.t) (u : json) (x : string) :
  x ∈ Ticket.subscribers (addSubscriber E t u) <->
  x ∈ Ticket.subscribers t \/ x = key E u.
Proof.
  unfold addSubscriber.
  destruct (bool_decide (key E u ∈ Ticket.subscribers t)) eqn:Hd.
  - apply bool_decide_eq_true in Hd. split; [intros H; left; exact H|].
    intros [H | ->]; assumption.
  - cbn. rewrite elem_of_app, list_elem_of_singleton. reflexivity.
Qed.

Lemma elem_of_removeSubscriber (E : Env) (t : Ticket.t) (u : json) (x : string) :
  x ∈ Ticket.subscribers (removeSubscriber E t u) <->
  x ∈ Ticket.subscribers t /\ x <> key E u.
Proof.
  unfold removeSubscriber. cbn.
  rewrite !list_elem_of_In, filter_In.
  destruct (String.eqb_spec x (key E u)) as [Heq|Hne]; cbn; intuition congruence.
Qed.

(** What a run of [subscribe] answered with success did to the store. *)
Lemma subscribe_success_inv (E : Env) (req : Request) (w w' : World) :
  api_tickets.subscribe E req w = Ok tt w' ->
  response w' = Some (mkResponse 200 subscribed_body) ->
  exists (oId : string) (t : Ticket.t) (u s : json),
    params req !! "id" = Some oId /\
    store w !! oId = Some t /\
    field (body req) "user" = Some u /\
    field (body req) "subscribe" = Some s /\
    store w' =
      <[Ticket.id t := if truthy s then addSubscriber E t u else removeSubscriber E t u]>
        (store w).
Proof.
  intros H Hresp. unfold api_tickets.subscribe in H.
  step H. apply lift_Ok_inv in Hstep as [Hu ->].
  step H. apply lift_Ok_inv in Hstep as [Hs ->].
  destruct a as [u|]; [|cbn in H; injection H as <-; cbn in Hresp; discriminate Hresp].
  destruct a0 as [s|]; [|cbn in H; injection H as <-; cbn in Hresp; discriminate Hresp].
  step H. unfold getTicketById in Hstep. injection Hstep as <- <-.
  destruct (find_error E (params req !! "id")) as [e|].
  { cbn in H. injection H as <-. cbn in Hresp. discriminate Hresp. }
  destruct (params req !! "id") as [oId|] eqn:Hid; cbn [mbind option_bind] in H;
    [|discriminate H].
  destruct (store w !! oId) as [t|] eqn:Hlook; [|discriminate H].
  step H. apply save_Ok_inv in Hstep as [(e & He & -> & ->)|(Hsave & -> & ->)].
  { cbn in H. injection H as <-. cbn in Hresp. discriminate Hresp. }
  cbn in H. injection H as <-.
  exists oId, t, u, s.
  split; [reflexivity|]. split; [exact Hlook|].
  split; [unfold field; rewrite Hu; reflexivity|].
  split; [unfold field; rewrite Hs; reflexivity|].
  cbn. destruct (truthy s); [rewrite addSubscriber_id|]; reflexivity.
Qed.

(** C8, amended: two runs of [subscribe] on the same ticket for the same
    user, both answered with success, the first with [subscribe: b] and the
    second with the opposite flag, leave the user a non-member when the
    flags were [true] then [false] and a member when they were [false] then
    [true], and every other membership as it was; so the membership is what
    it was before the two calls exactly when the user was not subscribed
    ([true] then [false]) or was subscribed ([false] then [true]). *)
Theorem subscribe_twice_membership
    (E : Env) (req1 req2 : Request) (w w1 w2 : World) (b : bool) :
  store_ok w ->
  params req2 !! "id" = params req1 !! "id" ->
  field (body req2) "user" = field (body req1) "user" ->
  field (body req1) "subscribe" = Some (JBool b) ->
  field (body req2) "subscribe" = Some (JBool (negb b)) ->
  api_tickets.subscribe E req1 w = Ok tt w1 ->
  response w1 = Some (mkResponse 200 subscribed_body) ->
  api_tickets.subscribe E req2 w1 = Ok tt w2 ->
  response w2 = Some (mkResponse 200 subscribed_body) ->
  exists (oId : string) (u : json) (t t2 : Ticket.t),
    params req1 !! "id" = Some oId /\
    field (body req1) "user" = Some u /\
    store w !! oId = Some t /\
    store w2 !! oId = Some t2 /\
    (forall x, x ∈ Ticket.subscribers t2 <->
               if b then x ∈ Ticket.subscribers t /\ x <> key E u
               else x ∈ Ticket.subscribers t \/ x = key E u) /\
    (same_subscribers t2 t <->
     if b then key E u ∉ Ticket.subscribers t else key E u ∈ Ticket.subscribers t).
Proof.
  intros Hok Hid Huser Hb1 Hb2 Hrun1 Hresp1 Hrun2 Hresp2.
  destruct (subscribe_success_inv E req1 w w1 Hrun1 Hresp1)
    as (oId & t & u & s1 & Hp1 & Hlook1 & Hu1 & Hs1 & Hst1).
  destruct (subscribe_success_inv E req2 w1 w2 Hrun2 Hresp2)
    as (oId2 & t1 & u2 & s2 & Hp2 & Hlook2 & Hu2 & Hs2 & Hst2).
  rewrite Hb1 in Hs1. injection Hs1 as <-.
  rewrite Hb2 in Hs2. injection Hs2 as <-.
  rewrite Hid, Hp1 in Hp2. injection Hp2 as <-.
  rewrite Huser, Hu1 in Hu2. injection Hu2 as <-.
  pose proof (Hok oId t Hlook1) as Hidt.
  rewrite Hst1, Hidt, lookup_insert_eq in Hlook2. injection Hlook2 as <-.
  cbn [truthy] in Hst1, Hst2 |- *.
  assert (Hmem : forall x,
             x ∈ Ticket.subscribers
                   (if negb b
                    then addSubscriber E (if b then addSubscriber E t u
                                          else removeSubscriber E t u) u
                    else removeSubscriber E (if b then addSubscriber E t u
                                             else removeSubscriber E t u) u) <->
             if b then x ∈ Ticket.subscribers t /\ x <> key E u
             else x ∈ Ticket.subscribers t \/ x = key E u).
  { intros x. destruct b; cbn [negb].
    - rewrite elem_of_removeSubscriber, elem_of_addSubscriber. intuition congruence.
    - rewrite elem_of_addSubscriber, elem_of_removeSubscriber.
      destruct (decide (x = key E u)); intuition congruence. }
  assert (Hid1 : Ticket.id (if b then addSubscriber E t u
                            else removeSubscriber E t u) = oId).
  { destruct b; [rewrite addSubscriber_id|cbn]; exact Hidt. }
  rewrite Hid1 in Hst2.
  exists oId, u, t. eexists.
  split; [exact Hp1|]. split; [exact Hu1|]. split; [exact Hlook1|].
  split; [rewrite Hst2; apply lookup_insert_eq|].
  split; [exact Hmem|].
  unfold same_subscribers. split.
  - intros Hsame. destruct b.
    + intros Hin. apply Hsame in Hin. apply Hmem in Hin as [_ Hne]. apply Hne. reflexivity.
    + apply Hsame, Hmem. right. reflexivity.
  - intros Hb x. rewrite Hmem. destruct b.
    + split; [intros [H _]; exact H|]. intros H. split; [exact H|].
      intros ->. apply Hb. exact H.
    + split; [|intros H; left; exact H]. intros [H | ->]; [exact H|exact Hb].
Qed.

Lemma subscribe_twice_membership_witness :
  exists (oId : string) (u : json) (t t2 : Ticket.t),
    params (req_subscribe true) !! "id" = Some oId /\
    field (body (req_subscribe true)) "user" = Some u /\
    store world_open !! oId = Some t /\
    store world_unsubscribed !! oId = Some t2 /\
    (forall x, x ∈ Ticket.subscribers t2 <->
               if true then x ∈ Ticket.subscribers t /\ x <> key env0 u
               else x ∈ Ticket.subscribers t \/ x = key env0 u) /\
    (same_subscribers t2 t <->
     if true then key env0 u ∉ Ticket.subscribers t
     else key env0 u ∈ Ticket.subscribers t).
Proof.
  apply (subscribe_twice_membership env0 (req_subscribe true) (req_subscribe false)
           world_open world_subscribed world_unsubscribed true).
  - exact world_open_store_ok.
  - reflexivity.
  - reflexivity.
  - vm_compute. reflexivity.
  - vm_compute. reflexivity.
  - vm_compute. reflexivity.
  - reflexivity.
  - vm_compute. reflexivity.
  - reflexivity.
Defined.

(** * Further properties *)

(** ** Line breaks *)

Lemma has_linebreak_br (s : string) : has_linebreak ("<br>" ++ s) = has_linebreak s.
Proof. reflexivity. Qed.

Lemma replace_linebreaks_bounded (n : nat) :
  forall s : string, (String.length s <= n)%nat ->
    has_linebreak (replace_linebreaks s) = false.
Proof.
  induction n as [|n IH]; intros s Hlen.
  - destruct s; [reflexivity|cbn in Hlen; lia].
  - destruct s as [|c r]; [reflexivity|]. cbn in Hlen.
    cbn [replace_linebreaks].
    destruct (Ascii.eqb c CR) eqn:Hcr.
    { destruct r as [|c2 r2]; [reflexivity|]. cbn in Hlen.
      destruct (Ascii.eqb c2 LF); rewrite has_linebreak_br; apply IH; cbn; lia. }
    destruct (Ascii.eqb c LF) eqn:Hlf.
    { destruct r as [|c2 r2]; [reflexivity|]. cbn in Hlen.
      destruct (Ascii.eqb c2 CR); rewrite has_linebreak_br; apply IH; cbn; lia. }
    cbn [has_linebreak]. rewrite Hcr, Hlf. cbn. apply IH. lia.
Qed.

Lemma replace_linebreaks_fixed (s : string) :
  has_linebreak s = false -> replace_linebreaks s = s.
Proof.
  induction s as [|c r IH]; [reflexivity|]. cbn [has_linebreak replace_linebreaks].
  intros H. apply orb_false_iff in H as [H Hr]. apply orb_false_iff in H as [Hcr Hlf].
  rewrite Hcr, Hlf, (IH Hr). reflexivity.
Qed.

(** X1: after the replacement of line breaks no carriage return and no line
    feed is left in the string. *)
Theorem replace_linebreaks_leaves_no_linebreak (s : string) :
  has_linebreak (replace_linebreaks s) = false.
Proof. apply (replace_linebreaks_bounded (String.length s)). lia. Qed.

(** X2: the replacement of line breaks is idempotent, and it is the identity
    on a string without line breaks. *)
Theorem replace_linebreaks_idempotent (s : string) :
  replace_linebreaks (replace_linebreaks s) = replace_linebreaks s /\
  (has_linebreak s = false -> replace_linebreaks s = s).
Proof.
  split; [|apply replace_linebreaks_fixed].
  apply replace_linebreaks_fixed.
  apply (replace_linebreaks_bounded (String.length s)). lia.
Qed.

(** ** Splitting *)

Lemma string_of_list_ascii_snoc (l : list ascii) (c : ascii) (r : string) :
  string_of_list_ascii (l ++ [c]) ++ r = string_of_list_ascii l ++ String c r.
Proof.
  induction l as [|a l IH]; [reflexivity|].
  change (String a (string_of_list_ascii (l ++ [c]) ++ r) =
          String a (string_of_list_ascii l ++ String c r)).
  f_equal. exact IH.
Qed.

Lemma append_empty_r (x : string) : x ++ EmptyString = x.
Proof.
  induction x as [|a x IH]; [reflexivity|].
  change (String a (x ++ EmptyString) = String a x). f_equal. exact IH.
Qed.

Lemma split_from_not_nil (sep : ascii) (cur : list ascii) (s : string) :
  split_from sep cur s <> [].
Proof.
  revert cur. induction s as [|c r IH]; intros cur; cbn; [discriminate|].
  destruct (Ascii.eqb c sep); [discriminate|apply IH].
Qed.

Lemma concat_split_from (sep : ascii) (s : string) :
  forall cur : list ascii,
    String.concat (String sep EmptyString) (split_from sep cur s) =
    string_of_list_ascii (List.rev cur) ++ s.
Proof.
  induction s as [|c r IH]; intros cur.
  - cbn [split_from String.concat]. symmetry. apply append_empty_r.
  - cbn [split_from]. destruct (Ascii.eqb_spec c sep) as [->|Hne].
    + pose proof (split_from_not_nil sep [] r) as Hnn.
      pose proof (IH []) as IH0.
      destruct (split_from sep [] r) as [|p ps]; [congruence|].
      cbn [String.concat]. cbn [String.concat] in IH0. rewrite IH0. reflexivity.
    + rewrite IH. cbn [List.rev]. apply string_of_list_ascii_snoc.
Qed.

(** X3: joining the pieces of [split sep s] with [sep] gives [s] back. *)
Theorem split_join_round_trip (sep : ascii) (s : string) :
  String.concat (String sep EmptyString) (split sep s) = s.
Proof. unfold split. rewrite concat_split_from. reflexivity. Qed.

Lemma has_char_of_list (a : ascii) (l : list ascii) :
  has_char a (string_of_list_ascii l) = existsb (fun c => Ascii.eqb c a) l.
Proof. induction l as [|c l IH]; cbn; [reflexivity|]. rewrite IH. reflexivity. Qed.

Lemma existsb_rev {A} (f : A -> bool) (l : list A) :
  existsb f (List.rev l) = existsb f l.
Proof.
  induction l as [|a l IH]; [reflexivity|].
  cbn [List.rev existsb]. rewrite existsb_app, IH. cbn.
  destruct (f a), (existsb f l); reflexivity.
Qed.

Lemma split_from_no_sep (sep : ascii) (s : string) :
  forall cur : list ascii,
    existsb (fun c => Ascii.eqb c sep) cur = false ->
    Forall (fun p => has_char sep p = false) (split_from sep cur s).
Proof.
  induction s as [|c r IH]; intros cur Hcur; cbn [split_from].
  - constructor; [|constructor]. rewrite has_char_of_list, existsb_rev. exact Hcur.
  - destruct (Ascii.eqb c sep) eqn:Hc.
    + constructor; [|apply IH; reflexivity].
      rewrite has_char_of_list, existsb_rev. exact Hcur.
    + apply IH. cbn. rewrite Hc, Hcur. reflexivity.
Qed.

(** ** Cleaning *)

Lemma has_ws_pair_cons_not_ws (d : ascii) (x : string) :
  is_ws d = false -> has_ws_pair (String d x) = has_ws_pair x.
Proof. intros Hd. destruct x as [|e y]; [reflexivity|]. cbn. rewrite Hd. reflexivity. Qed.

Lemma has_ws_pair_cons_cons_not_ws (c d : ascii) (x : string) :
  is_ws d = false -> has_ws_pair (String c (String d x)) = has_ws_pair x.
Proof.
  intros Hd. change (has_ws_pair (String c (String d x)))
    with ((is_ws c && is_ws d) || has_ws_pair (String d x))%bool.
  rewrite Hd, andb_false_r. cbn [orb]. apply has_ws_pair_cons_not_ws. exact Hd.
Qed.

Lemma collapse_ws_no_pair (s : string) :
  forall st : ws_run, has_ws_pair (collapse_ws st s) = false.
Proof.
  induction s as [|d r IH]; intros st.
  - destruct st; reflexivity.
  - cbn [collapse_ws]. destruct (is_ws d) eqn:Hd.
    + destruct st; apply IH.
    + destruct st; cbn [flush_run].
      * rewrite has_ws_pair_cons_not_ws by exact Hd. apply IH.
      * rewrite has_ws_pair_cons_cons_not_ws by exact Hd. apply IH.
      * rewrite has_ws_pair_cons_cons_not_ws by exact Hd. apply IH.
Qed.

(** X4: a cleaned string never holds two white-space characters in a row. *)
Theorem clean_leaves_no_whitespace_run (s : string) :
  has_ws_pair (clean s) = false.
Proof. unfold clean. apply collapse_ws_no_pair. Qed.

(** ** Creation, continued *)

(** X5: no tag of a ticket stored by [create] holds a comma. *)
Theorem create_tags_hold_no_comma
    (E : Env) (req : Request) (w w' : World) (t : Ticket.t) :
  api_tickets.create E req w = Ok tt w' ->
  response w' = Some (mkResponse 200 (created_body t)) ->
  Forall (fun tag => has_char "," tag = false) (Ticket.tags t).
Proof.
  intros Hrun Hresp.
  destruct (create_success_inv E req w w' t Hrun Hresp)
    as (u & s0 & ptags & _ & _ & _ & _ & _ & Ht & _).
  rewrite Ht. cbn [Ticket.tags Ticket.set_subscribers Ticket.set_history Ticket.set_tags].
  destruct ptags as [j|]; [|constructor].
  unfold compact. apply Forall_forall. intros tag Hin.
  apply list_elem_of_In, filter_In in Hin as [Hin _].
  pose proof (split_from_no_sep "," (clean (makeString E j)) [] eq_refl) as Hall.
  rewrite Forall_forall in Hall. apply Hall, list_elem_of_In. exact Hin.
Qed.

Lemma create_tags_hold_no_comma_witness :
  Forall (fun tag => has_char "," tag = false) (Ticket.tags ticket_spaced_tags).
Proof.
  apply (create_tags_hold_no_comma env0 req_create_spaced_tags world0
           world_spaced_tags ticket_spaced_tags).
  - vm_compute. reflexivity.
  - reflexivity.
Defined.

(** X6: [create] never touches the files.  The run that answers with the
    success body for a ticket has added exactly that ticket to the store,
    under its identifier, and emitted exactly one event, ['ticket:created'],
    carrying that ticket; every other run (another answer, or an exception)
    leaves the store and the events as they were. *)
Theorem create_mutates_only_on_success
    (E : Env) (req : Request) (w : World) (r : Res unit) :
  api_tickets.create E req w = r ->
  files (world_of r) = files w /\
  (forall (t : Ticket.t) (w' : World),
     r = Ok tt w' ->
     response w' = Some (mkResponse 200 (created_body t)) ->
     store w' = <[Ticket.id t := t]> (store w) /\
     exists sid, events w' = (events w ++ [TicketCreated sid t])%list) /\
  ((forall (t : Ticket.t) (w' : World),
      r = Ok tt w' -> response w' <> Some (mkResponse 200 (created_body t))) ->
   store (world_of r) = store w /\ events (world_of r) = events w).
Proof.
  intros <-.
  destruct (isObject (body req)) eqn:Hobj.
  - destruct (create_object_body_cases E req w Hobj)
      as [(e & ->)|[(t0 & err0 & Hs & ->)|(t0 & sid & Hs & ->)]].
    + split; [reflexivity|]. split.
      * intros t w' H. discriminate H.
      * intros _. split; reflexivity.
    + split; [reflexivity|]. split.
      * intros t w' H Hr. injection H as <-. cbn in Hr. discriminate Hr.
      * intros _. split; reflexivity.
    + split; [reflexivity|]. split.
      * intros t w' H Hr. injection H as <-. cbn in Hr. injection Hr as <-.
        split; [reflexivity|]. exists sid. reflexivity.
      * intros Hno. exfalso. eapply (Hno t0); reflexivity.
  - unfold api_tickets.create. rewrite Hobj. cbn.
    split; [reflexivity|]. split.
    + intros t w' H Hr. injection H as <-. cbn in Hr. discriminate Hr.
    + intros _. split; reflexivity.
Qed.

Lemma create_mutates_only_on_success_witness :
  store world_abc = <[Ticket.id ticket_abc := ticket_abc]> (store world0) /\
  (exists sid, events world_abc = (events world0 ++ [TicketCreated sid ticket_abc])%list) /\
  store (world_of (api_tickets.create env_save_fails req_create_abc world0)) = store world0 /\
  events (world_of (api_tickets.create env_save_fails req_create_abc world0)) = events world0.
Proof.
  assert (Hrun : api_tickets.create env0 req_create_abc world0 = Ok tt world_abc)
    by (vm_compute; reflexivity).
  destruct (create_mutates_only_on_success env0 req_create_abc world0 _ Hrun)
    as (_ & Hsucc & _).
  destruct (Hsucc ticket_abc world_abc eq_refl eq_refl) as (Hstore & Hev).
  destruct (create_mutates_only_on_success env_save_fails req_create_abc world0 _ eq_refl)
    as (_ & _ & Hfail).
  split; [exact Hstore|]. split; [exact Hev|].
  apply Hfail. intros t w' H Hr. vm_compute in H. injection H as <-.
  cbn in Hr. discriminate Hr.
Defined.

(** ** Lookup by uid, continued *)

(** X7: [single] always returns with an answer of status 200, also when the
    store reports an error, and leaves the store, the events and the files
    as they were. *)
Theorem single_always_answers_200 (E : Env) (req : Request) (w : World) :
  exists (w' : World) (b : Body),
    api_tickets.single E req w = Ok tt w' /\
    response w' = Some (mkResponse 200 b) /\
    store w' = store w /\ events w' = events w /\ files w' = files w.
Proof.
  unfold api_tickets.single.
  destruct (params req !! "uid") as [uid|].
  - unfold mbind, M_bind, getTicketByUid.
    destruct (find_error E (Some uid)) as [e|].
    + eexists _, _. split; [reflexivity|]. repeat split.
    + destruct (head _) as [t|]; eexists _, _; (split; [reflexivity|]); repeat split.
  - eexists _, _. split; [reflexivity|]. repeat split.
Qed.

(** ** Update, continued *)

Lemma assign_if_defined_null (reqTicket : value) (k : string)
    (set : value -> Ticket.t -> Ticket.t) (w : World) :
  api_tickets.assign_if_defined reqTicket k set None w = Ok None w \/
  exists msg,
    api_tickets.assign_if_defined reqTicket k set None w = Threw (TypeError msg) w.
Proof.
  unfold api_tickets.assign_if_defined, mbind, M_bind.
  destruct reqTicket as [[| | | | |m]|]; cbn;
    try (left; reflexivity); try (right; eexists; reflexivity).
  destruct (m !! k); [right; eexists|left]; reflexivity.
Qed.

(** X8: [update] for a user, with an identifier under which the store finds
    no ticket and reports no error, sends no answer: it throws a
    [TypeError], whatever the body, and the store, the events and the
    response are as they were. *)
Theorem update_unknown_ticket_throws
    (E : Env) (req : Request) (w : World) (u : User) (oId : string) :
  user req = UserDoc u ->
  params req !! "id" = Some oId ->
  find_error E (Some oId) = None ->
  store w !! oId = None ->
  exists (msg : string) (w' : World),
    api_tickets.update E req w = Threw (TypeError msg) w' /\
    store w' = store w /\ events w' = events w /\ response w' = response w.
Proof.
  intros Hu Hid Hfind Hlook. unfold api_tickets.update.
  rewrite Hu, Hid. cbn [isUndefined].
  unfold mbind at 1, M_bind at 1, getTicketById. rewrite Hfind.
  cbn [mbind option_bind]. rewrite Hlook.
  set (w1 := with_store (store w) (OpFind (default "" (Some oId))) w).
  assert (Hw1 : store w1 = store w /\ events w1 = events w /\ response w1 = response w)
    by (repeat split).
  unfold mbind, M_bind.
  destruct (assign_if_defined_null (body req) "status" Ticket.set_status w1)
    as [-> | [msg ->]]; [|exists msg, w1; split; [reflexivity|exact Hw1]].
  destruct (assign_if_defined_null (body req) "group" Ticket.set_group w1)
    as [-> | [msg ->]]; [|exists msg, w1; split; [reflexivity|exact Hw1]].
  destruct (assign_if_defined_null (body req) "closedDate" Ticket.set_closedDate w1)
    as [-> | [msg ->]]; [|exists msg, w1; split; [reflexivity|exact Hw1]].
  eexists _, w1. split; [reflexivity|exact Hw1].
Qed.

Lemma update_unknown_ticket_throws_witness :
  exists (msg : string) (w' : World),
    api_tickets.update env0 req_update_unknown world_open = Threw (TypeError msg) w' /\
    store w' = store world_open /\ events w' = events world_open /\
    response w' = response world_open.
Proof.
  apply (update_unknown_ticket_throws env0 req_update_unknown world_open alice "t9").
  - reflexivity.
  - reflexivity.
  - reflexivity.
  - vm_compute. reflexivity.
Defined.

(** What a run of [update] that answers with a ticket did. *)
Lemma update_success_inv (E : Env) (req : Request) (w w' : World) (t' : Ticket.t) :
  response w = None ->
  api_tickets.update E req w = Ok tt w' ->
  response w' = Some (mkResponse 200 (JsonTicket t')) ->
  exists (oId : string) (t : Ticket.t),
    params req !! "id" = Some oId /\
    store w !! oId = Some t /\
    t' = applied (body req) "closedDate" Ticket.set_closedDate
           (applied (body req) "group" Ticket.set_group
              (applied (body req) "status" Ticket.set_status t)) /\
    store w' = <[Ticket.id t' := t']> (store w) /\
    events w' = (events w ++ [TicketUpdated t'])%list /\
    files w' = files w.
Proof.
  intros Hnone H Hresp. unfold api_tickets.update in H.
  destruct (user req) as [| |u].
  1,2: cbn in H; injection H as <-; rewrite Hnone in Hresp; discriminate Hresp.
  destruct (params req !! "id") as [oId|] eqn:Hid; cbn [isUndefined] in H.
  2:{ cbn in H. injection H as <-. cbn in Hresp. discriminate Hresp. }
  step H. unfold getTicketById in Hstep. injection Hstep as <- <-.
  destruct (find_error E (Some oId)) as [e|].
  { cbn in H. injection H as <-. cbn in Hresp. discriminate Hresp. }
  cbn [mbind option_bind] in H.
  step H. apply assign_if_defined_Ok_inv in Hstep as [-> ->].
  step H. apply assign_if_defined_Ok_inv in Hstep as [-> ->].
  step H. apply assign_if_defined_Ok_inv in Hstep as [-> ->].
  destruct (store w !! oId) as [t|] eqn:Hlook; cbn [fmap option_fmap option_map] in H.
  2:{ discriminate H. }
  step H. apply save_Ok_inv in Hstep as [(e & He & -> & ->)|(Hsave & -> & ->)].
  { cbn in H. injection H as <-. cbn in Hresp. discriminate Hresp. }
  cbn in H. injection H as <-. cbn in Hresp. injection Hresp as <-.
  exists oId, t. repeat split. exact Hlook.
Qed.

Lemma applied_frame (reqTicket : value) (t : Ticket.t) :
  let t' := applied reqTicket "closedDate" Ticket.set_closedDate
              (applied reqTicket "group" Ticket.set_group
                 (applied reqTicket "status" Ticket.set_status t)) in
  Ticket.id t' = Ticket.id t /\ Ticket.uid t' = Ticket.uid t /\
  Ticket.owner t' = Ticket.owner t /\ Ticket.subject t' = Ticket.subject t /\
  Ticket.issue t' = Ticket.issue t /\ Ticket.updated t' = Ticket.updated t /\
  Ticket.deleted t' = Ticket.deleted t /\ Ticket.tags t' = Ticket.tags t /\
  Ticket.comments t' = Ticket.comments t /\ Ticket.history t' = Ticket.history t /\
  Ticket.attachments t' = Ticket.attachments t /\
  Ticket.subscribers t' = Ticket.subscribers t.
Proof.
  unfold applied.
  destruct (field reqTicket "status"), (field reqTicket "group"),
    (field reqTicket "closedDate"); cbn; repeat split.
Qed.

(** X9: a run of [update] that answers with the saved ticket appends no
    history entry and leaves the owner, the subject, the issue, the
    [updated] timestamp, the tags, the comments, the attachments and the
    subscribers of the ticket as they were; it emits exactly one event,
    ['ticket:updated'], carrying the saved ticket. *)
Theorem update_keeps_history_and_other_fields
    (E : Env) (req : Request) (w w' : World) (t' : Ticket.t) :
  response w = None ->
  api_tickets.update E req w = Ok tt w' ->
  response w' = Some (mkResponse 200 (JsonTicket t')) ->
  exists (oId : string) (t : Ticket.t),
    params req !! "id" = Some oId /\
    store w !! oId = Some t /\
    store w' !! Ticket.id t' = Some t' /\
    events w' = (events w ++ [TicketUpdated t'])%list /\
    Ticket.history t' = Ticket.history t /\
    Ticket.updated t' = Ticket.updated t /\
    Ticket.owner t' = Ticket.owner t /\ Ticket.subject t' = Ticket.subject t /\
    Ticket.issue t' = Ticket.issue t /\ Ticket.tags t' = Ticket.tags t /\
    Ticket.comments t' = Ticket.comments t /\
    Ticket.attachments t' = Ticket.attachments t /\
    Ticket.subscribers t' = Ticket.subscribers t.
Proof.
  intros Hnone H Hresp.
  destruct (update_success_inv E req w w' t' Hnone H Hresp)
    as (oId & t & Hid & Hlook & Ht & Hstore & Hev & _).
  pose proof (applied_frame (body req) t) as Hframe. cbn zeta in Hframe.
  rewrite <- Ht in Hframe.
  destruct Hframe as (_ & _ & Ho & Hsub & Hi & Hup & _ & Htags & Hc & Hh & Ha & Hs).
  exists oId, t. split; [exact Hid|]. split; [exact Hlook|].
  split; [rewrite Hstore; apply lookup_insert_eq|].
  split; [exact Hev|].
  repeat split; assumption.
Qed.

Lemma update_keeps_history_and_other_fields_witness :
  exists (oId : string) (t : Ticket.t),
    params req_update_status !! "id" = Some oId /\
    store world_open !! oId = Some t /\
    store world_open_status1 !! Ticket.id ticket_open_status1 = Some ticket_open_status1 /\
    events world_open_status1 = (events world_open ++ [TicketUpdated ticket_open_status1])%list /\
    Ticket.history ticket_open_status1 = Ticket.history t /\
    Ticket.updated ticket_open_status1 = Ticket.updated t /\
    Ticket.owner ticket_open_status1 = Ticket.owner t /\
    Ticket.subject ticket_open_status1 = Ticket.subject t /\
    Ticket.issue ticket_open_status1 = Ticket.issue t /\
    Ticket.tags ticket_open_status1 = Ticket.tags t /\
    Ticket.comments ticket_open_status1 = Ticket.comments t /\
    Ticket.attachments ticket_open_status1 = Ticket.attachments t /\
    Ticket.subscribers ticket_open_status1 = Ticket.subscribers t.
Proof.
  apply (update_keeps_history_and_other_fields env0 req_update_status world_open
           world_open_status1 ticket_open_status1).
  - reflexivity.
  - vm_compute. reflexivity.
  - reflexivity.
Defined.

Lemma applied_twice (reqTicket : value) (t : Ticket.t) :
  let f := fun x => applied reqTicket "closedDate" Ticket.set_closedDate
                      (applied reqTicket "group" Ticket.set_group
                         (applied reqTicket "status" Ticket.set_status x)) in
  f (f t) = f t.
Proof.
  unfold applied.
  destruct (field reqTicket "status"), (field reqTicket "group"),
    (field reqTicket "closedDate"); reflexivity.
Qed.

(** X10: [update] is idempotent: when the same request is answered with a
    ticket twice in a row, the second answer is the ticket of the first and
    the second run leaves the store as the first left it. *)
Theorem update_twice_same_as_once
    (E : Env) (req : Request) (w w1 w2 : World) (t1 t2 : Ticket.t) :
  store_ok w ->
  response w = None ->
  api_tickets.update E req w = Ok tt w1 ->
  response w1 = Some (mkResponse 200 (JsonTicket t1)) ->
  api_tickets.update E req (next_request w1) = Ok tt w2 ->
  response w2 = Some (mkResponse 200 (JsonTicket t2)) ->
  t2 = t1 /\ store w2 = store w1.
Proof.
  intros Hok Hnone Hrun1 Hresp1 Hrun2 Hresp2.
  destruct (update_success_inv E req w w1 t1 Hnone Hrun1 Hresp1)
    as (oId & t & Hid & Hlook & Ht1 & Hst1 & _ & _).
  destruct (update_success_inv E req (next_request w1) w2 t2 eq_refl Hrun2 Hresp2)
    as (oId' & t' & Hid' & Hlook' & Ht2 & Hst2 & _ & _).
  rewrite Hid in Hid'. injection Hid' as <-.
  pose proof (applied_frame (body req) t) as Hframe. cbn zeta in Hframe.
  rewrite <- Ht1 in Hframe. destruct Hframe as (Hidt & _).
  rewrite (Hok oId t Hlook) in Hidt.
  cbn [next_request store] in Hlook', Hst2.
  rewrite Hst1, Hidt, lookup_insert_eq in Hlook'. injection Hlook' as <-.
  assert (Heq : t2 = t1).
  { rewrite Ht2, Ht1. apply (applied_twice (body req) t). }
  split; [exact Heq|].
  rewrite Hst2, Heq, Hst1. apply insert_insert_eq.
Qed.

Lemma update_twice_same_as_once_witness :
  ticket_open_status1 = ticket_open_status1 /\
  store (responded 200 (JsonTicket ticket_open_status1)
           (mkWorld {[ "t1" := ticket_open_status1 ]}
                    [OpFind "t1"; OpSaved ticket_open_status1;
                     OpFind "t1"; OpSaved ticket_open_status1]
                    [TicketUpdated ticket_open_status1; TicketUpdated ticket_open_status1]
                    None {[ "/public/uploads/a1.png" ]}))
  = store world_open_status1.
Proof.
  apply (update_twice_same_as_once env0 req_update_status world_open world_open_status1).
  - exact world_open_store_ok.
  - reflexivity.
  - vm_compute. reflexivity.
  - reflexivity.
  - vm_compute. reflexivity.
  - reflexivity.
Defined.

Lemma update_response_is_200
    (E : Env) (req : Request) (w : World) (resp : Response) :
  response w = None ->
  response (world_of (api_tickets.update E req w)) = Some resp ->
  code resp = 200 /\
  ((exists t, payload resp = JsonTicket t) \/ (exists msg, payload resp = Send (RStr msg))).
Proof.
  intros Hnone. unfold api_tickets.update.
  destruct (user req) as [| |u].
  1,2: cbn; rewrite Hnone; intros H; discriminate H.
  destruct (params req !! "id") as [oId|]; cbn [isUndefined].
  2:{ cbn. intros H. injection H as <-. split; [reflexivity|]. right. eexists. reflexivity. }
  unfold mbind at 1, M_bind at 1, getTicketById.
  destruct (find_error E (Some oId)) as [e|].
  { cbn. intros H. injection H as <-. split; [reflexivity|]. right. eexists. reflexivity. }
  set (w1 := with_store _ _ w).
  assert (Hw1 : response w1 = None) by exact Hnone.
  clearbody w1.
  generalize (Some oId ≫= λ i : string, store w !! i). intros ticket.
  unfold mbind, M_bind.
  destruct (assign_if_defined_world (body req) "status" Ticket.set_status ticket w1)
    as [[r1 ->]|[e ->]]; [|cbn; rewrite Hw1; intros H; discriminate H].
  destruct (assign_if_defined_world (body req) "group" Ticket.set_group r1 w1)
    as [[r2 ->]|[e ->]]; [|cbn; rewrite Hw1; intros H; discriminate H].
  destruct (assign_if_defined_world (body req) "closedDate" Ticket.set_closedDate r2 w1)
    as [[r3 ->]|[e ->]]; [|cbn; rewrite Hw1; intros H; discriminate H].
  destruct r3 as [t|]; [|cbn; rewrite Hw1; intros H; discriminate H].
  unfold save. destruct (save_error E t) as [e|]; cbn; intros H; injection H as <-.
  - split; [reflexivity|]. right. eexists. reflexivity.
  - split; [reflexivity|]. left. eexists. reflexivity.
Qed.

(** X11: [update] never answers with an error status.  For a request with a
    user: a missing identifier is answered with status 200 and the text
    ['Invalid Ticket Id'], before any store operation; a failed lookup is
    answered with status 200 and the message of the error; a failed save
    (ticket found, body readable) is answered with status 200 and the
    message of the error, the store and the events being as they were.
    And every answer [update] sends has status 200, with the saved ticket
    or a text as body. *)
Theorem update_answers_only_200 (E : Env) (req : Request) (w : World) :
  response w = None ->
  (forall u, user req = UserDoc u -> params req !! "id" = None ->
     api_tickets.update E req w =
       Ok tt (responded 200 (Send (RStr "Invalid Ticket Id")) w)) /\
  (forall u oId e,
     user req = UserDoc u -> params req !! "id" = Some oId ->
     find_error E (Some oId) = Some e ->
     api_tickets.update E req w =
       Ok tt (responded 200 (Send (RStr (message e)))
                (with_store (store w) (OpFind oId) w))) /\
  (forall u oId t j e,
     user req = UserDoc u -> params req !! "id" = Some oId ->
     find_error E (Some oId) = None -> store w !! oId = Some t ->
     body req = Some j -> j <> JNull ->
     save_error E (updated_ticket (body req) t) = Some e ->
     exists w',
       api_tickets.update E req w = Ok tt w' /\
       response w' = Some (mkResponse 200 (Send (RStr (message e)))) /\
       store w' = store w /\ events w' = events w) /\
  (forall resp,
     response (world_of (api_tickets.update E req w)) = Some resp ->
     code resp = 200 /\
     ((exists t, payload resp = JsonTicket t) \/
      (exists msg, payload resp = Send (RStr msg)))).
Proof.
  intros Hnone. split; [|split; [|split]].
  - intros u Hu Hid. unfold api_tickets.update. rewrite Hu, Hid. reflexivity.
  - intros u oId e Hu Hid Hfind. unfold api_tickets.update. rewrite Hu, Hid.
    cbn [isUndefined]. unfold mbind, M_bind, getTicketById. rewrite Hfind. reflexivity.
  - intros u oId t j e Hu Hid Hfind Hlook Hbody Hj Hsave.
    unfold api_tickets.update. rewrite Hu, Hid. cbn [isUndefined].
    unfold mbind, M_bind, getTicketById. rewrite Hfind. cbn [mbind option_bind].
    rewrite Hlook. rewrite Hbody in *.
    rewrite !assign_if_defined_readable by exact Hj.
    unfold save.
    change (applied (Some j) "closedDate" Ticket.set_closedDate
              (applied (Some j) "group" Ticket.set_group
                 (applied (Some j) "status" Ticket.set_status t)))
      with (updated_ticket (Some j) t).
    rewrite Hsave. eexists. split; [reflexivity|]. repeat split.
  - intros resp. apply update_response_is_200. exact Hnone.
Qed.

Lemma update_answers_only_200_witness :
  api_tickets.update env0 req_update_no_id world_open =
    Ok tt (responded 200 (Send (RStr "Invalid Ticket Id")) world_open) /\
  api_tickets.update env_find_fails req_update_status world_open =
    Ok tt (responded 200 (Send (RStr "lookup failed"))
             (with_store (store world_open) (OpFind "t1") world_open)) /\
  (exists w',
     api_tickets.update env_save_fails req_update_status world_open = Ok tt w' /\
     response w' = Some (mkResponse 200 (Send (RStr "save failed"))) /\
     store w' = store world_open /\ events w' = events world_open) /\
  code (mkResponse 200 (JsonTicket ticket_open_status1)) = 200.
Proof.
  assert (Hlook : store world_open !! "t1" = Some ticket_open)
    by (vm_compute; reflexivity).
  assert (Hj : JObj (list_to_map [("status", JNum 1)]) <> JNull) by discriminate.
  destruct (update_answers_only_200 env0 req_update_no_id world_open eq_refl)
    as (Hnoid & _).
  destruct (update_answers_only_200 env_find_fails req_update_status world_open eq_refl)
    as (_ & Hfind & _).
  destruct (update_answers_only_200 env_save_fails req_update_status world_open eq_refl)
    as (_ & _ & Hsave & _).
  destruct (update_answers_only_200 env0 req_update_status world_open eq_refl)
    as (_ & _ & _ & Hany).
  split; [|split; [|split]].
  - apply (Hnoid alice); reflexivity.
  - apply (Hfind alice "t1" (mkErr "lookup failed")); reflexivity.
  - apply (Hsave alice "t1" ticket_open (JObj (list_to_map [("status", JNum 1)]))
             (mkErr "save failed") eq_refl eq_refl eq_refl Hlook eq_refl Hj eq_refl).
  - apply Hany. vm_compute. reflexivity.
Defined.

(** ** Comments, continued *)

(** What a run of [postComment] that answers with a ticket did. *)
Lemma postComment_success_inv
    (E : Env) (req : Request) (w w' : World) (t' : Ticket.t) :
  response w = None ->
  api_tickets.postComment E req w = Ok tt w' ->
  response w' = Some (mkResponse 200 (comment_body t')) ->
  exists (u : User) (ticketId : json) (text : string) (t : Ticket.t),
    getUserByAccessToken E (headers req !! "accesstoken") = inr (Some u) /\
    field (body req) "_id" = Some ticketId /\
    field (body req) "comment" = Some (JStr text) /\
    store w !! key E ticketId = Some t /\
    t' = with_comment E (field (body req) "ownerId") text u t /\
    store w' = <[Ticket.id t := t']> (store w) /\
    events w' =
      (events w ++
         [TicketCommentAdded t'
            (Comment.mk (field (body req) "ownerId") (date_new E)
                        (marked E (replace_linebreaks text)))])%list.
Proof.
  intros Hnone H Hresp. unfold api_tickets.postComment in H.
  destruct (getUserByAccessToken E (headers req !! "accesstoken")) as [e|[u|]] eqn:Htok.
  1,3: cbn in H; injection H as <-; cbn in Hresp; discriminate Hresp.
  step H. apply lift_Ok_inv in Hstep as [Hc ->].
  step H. apply lift_Ok_inv in Hstep as [Ho ->].
  step H. apply lift_Ok_inv in Hstep as [Hi ->].
  destruct a1 as [ticketId|].
  2:{ cbn in H. injection H as <-. cbn in Hresp. discriminate Hresp. }
  step H. unfold getTicketById in Hstep. injection Hstep as <- <-.
  destruct (find_error E (Some (key E ticketId))) as [e|].
  { cbn in H. injection H as <-. cbn in Hresp. discriminate Hresp. }
  destruct a as [cj|].
  2:{ cbn in H. injection H as <-. cbn in Hresp. discriminate Hresp. }
  step H. apply js_replace_linebreaks_Ok_inv in Hstep as (s0 & Hs0 & -> & ->).
  injection Hs0 as ->.
  cbn [mbind option_bind] in H.
  destruct (store w !! key E ticketId) as [t|] eqn:Hlook; [|discriminate H].
  step H. apply save_Ok_inv in Hstep as [(e & He & -> & ->)|(Hsave & -> & ->)].
  { cbn in H. injection H as <-. cbn in Hresp. discriminate Hresp. }
  match type of H with context [populate_error E ?d] =>
    destruct (populate_error E d) as [e|] end.
  { cbn in H. injection H as <-. cbn in Hresp. rewrite Hnone in Hresp. discriminate Hresp. }
  cbn in H. injection H as <-. cbn in Hresp. injection Hresp as <-.
  assert (Hfo : field (body req) "ownerId" = a0) by (unfold field; rewrite Ho; reflexivity).
  exists u, ticketId, s0, t.
  split; [reflexivity|].
  split; [unfold field; rewrite Hi; reflexivity|].
  split; [unfold field; rewrite Hc; reflexivity|].
  split; [exact Hlook|].
  rewrite Hfo. repeat split.
Qed.

(** X12: in a run of [postComment] that answers with a ticket, the appended
    comment has as owner the [ownerId] of the request body (not the user of
    the access token), as date the reading of the clock, and as text the
    rendering by [marked] of the body's comment with its line breaks
    replaced by [<br>]; the appended history entry is owned by the user of
    the access token; the status, group, owner, tags, attachments and
    subscribers of the ticket are as they were. *)
Theorem postComment_comment_content_and_frame
    (E : Env) (req : Request) (w w' : World) (t' : Ticket.t) :
  response w = None ->
  api_tickets.postComment E req w = Ok tt w' ->
  response w' = Some (mkResponse 200 (comment_body t')) ->
  exists (u : User) (ticketId : json) (text : string) (t : Ticket.t),
    getUserByAccessToken E (headers req !! "accesstoken") = inr (Some u) /\
    field (body req) "_id" = Some ticketId /\
    field (body req) "comment" = Some (JStr text) /\
    store w !! key E ticketId = Some t /\
    Ticket.comments t' =
      (Ticket.comments t ++
         [Comment.mk (field (body req) "ownerId") (date_new E)
                     (marked E (replace_linebreaks text))])%list /\
    Ticket.history t' = (Ticket.history t ++ [comment_entry (user_id u)])%list /\
    Ticket.id t' = Ticket.id t /\ Ticket.uid t' = Ticket.uid t /\
    Ticket.owner t' = Ticket.owner t /\ Ticket.group t' = Ticket.group t /\
    Ticket.status t' = Ticket.status t /\
    Ticket.closedDate t' = Ticket.closedDate t /\
    Ticket.subject t' = Ticket.subject t /\ Ticket.issue t' = Ticket.issue t /\
    Ticket.tags t' = Ticket.tags t /\
    Ticket.attachments t' = Ticket.attachments t /\
    Ticket.subscribers t' = Ticket.subscribers t.
Proof.
  intros Hnone H Hresp.
  destruct (postComment_success_inv E req w w' t' Hnone H Hresp)
    as (u & ticketId & text & t & Htok & Hid & Hc & Hlook & -> & _ & _).
  exists u, ticketId, text, t. repeat split; assumption.
Qed.

Lemma postComment_comment_content_and_frame_witness :
  exists (u : User) (ticketId : json) (text : string) (t : Ticket.t),
    getUserByAccessToken env0 (headers req_comment_as_other !! "accesstoken")
      = inr (Some u) /\
    field (body req_comment_as_other) "_id" = Some ticketId /\
    field (body req_comment_as_other) "comment" = Some (JStr text) /\
    store world_open !! key env0 ticketId = Some t /\
    Ticket.comments ticket_commented_as_other =
      (Ticket.comments t ++
         [Comment.mk (field (body req_comment_as_other) "ownerId") (date_new env0)
                     (marked env0 (replace_linebreaks text))])%list /\
    Ticket.history ticket_commented_as_other =
      (Ticket.history t ++ [comment_entry (user_id u)])%list /\
    Ticket.id ticket_commented_as_other = Ticket.id t /\
    Ticket.uid ticket_commented_as_other = Ticket.uid t /\
    Ticket.owner ticket_commented_as_other = Ticket.owner t /\
    Ticket.group ticket_commented_as_other = Ticket.group t /\
    Ticket.status ticket_commented_as_other = Ticket.status t /\
    Ticket.closedDate ticket_commented_as_other = Ticket.closedDate t /\
    Ticket.subject ticket_commented_as_other = Ticket.subject t /\
    Ticket.issue ticket_commented_as_other = Ticket.issue t /\
    Ticket.tags ticket_commented_as_other = Ticket.tags t /\
    Ticket.attachments ticket_commented_as_other = Ticket.attachments t /\
    Ticket.subscribers ticket_commented_as_other = Ticket.subscribers t.
Proof.
  apply (postComment_comment_content_and_frame env0 req_comment_as_other world_open
           (world_of (api_tickets.postComment env0 req_comment_as_other world_open))).
  - reflexivity.
  - vm_compute. reflexivity.
  - vm_compute. reflexivity.
Defined.

(** X13: when the save of the commented ticket succeeds and the population
    of the comment owners then fails, [postComment] returns without an
    answer and without an event, although the comment is stored. *)
Theorem postComment_populate_failure_stores_without_answer
    (E : Env) (req : Request) (w : World) (u : User) (ticketId : json)
    (text : string) (t : Ticket.t) (e : Err) :
  getUserByAccessToken E (headers req !! "accesstoken") = inr (Some u) ->
  field (body req) "_id" = Some ticketId ->
  field (body req) "comment" = Some (JStr text) ->
  find_error E (Some (key E ticketId)) = None ->
  store w !! key E ticketId = Some t ->
  save_error E (with_comment E (field (body req) "ownerId") text u t) = None ->
  populate_error E (with_comment E (field (body req) "ownerId") text u t) = Some e ->
  exists w',
    api_tickets.postComment E req w = Ok tt w' /\
    store w' !! Ticket.id t =
      Some (with_comment E (field (body req) "ownerId") text u t) /\
    response w' = response w /\
    events w' = events w.
Proof.
  intros Htok Hid Hc Hfind Hlook Hsave Hpop.
  unfold api_tickets.postComment. rewrite Htok.
  destruct (body req) as [[| | | | |m]|]; try discriminate Hid.
  unfold field in Hid, Hc, Hsave, Hpop. cbn [prop] in Hid, Hc, Hsave, Hpop.
  cbn [prop lift]. unfold mbind, M_bind, mret, M_ret.
  rewrite Hid, Hc. unfold getTicketById. rewrite Hfind.
  cbn [js_replace_linebreaks mret M_ret mbind option_bind]. rewrite Hlook.
  unfold save.
  change (Ticket.set_history _ _) with (with_comment E (m !! "ownerId") text u t).
  rewrite Hsave, Hpop.
  eexists. split; [reflexivity|]. cbn. split; [apply lookup_insert_eq|].
  split; reflexivity.
Qed.

Lemma postComment_populate_failure_stores_without_answer_witness :
  exists w',
    api_tickets.postComment env_populate_fails req_comment world_open = Ok tt w' /\
    store w' !! Ticket.id ticket_open =
      Some (with_comment env_populate_fails (field (body req_comment) "ownerId")
              "hello" alice ticket_open) /\
    response w' = response world_open /\
    events w' = events world_open.
Proof.
  apply (postComment_populate_failure_stores_without_answer env_populate_fails
           req_comment world_open alice (JStr "t1") "hello" ticket_open
           (mkErr "populate failed")).
  - reflexivity.
  - vm_compute. reflexivity.
  - vm_compute. reflexivity.
  - reflexivity.
  - vm_compute. reflexivity.
  - reflexivity.
  - reflexivity.
Defined.

Lemma postComment_answer_status
    (E : Env) (req : Request) (w : World) (resp : Response) :
  response w = None ->
  response (world_of (api_tickets.postComment E req w)) = Some resp ->
  (code resp = 401 /\
   (forall u, getUserByAccessToken E (headers req !! "accesstoken") <> inr (Some u)) /\
   api_tickets.postComment E req w = Ok tt (responded 401 (payload resp) w)) \/
  (code resp = 200 /\
   exists u, getUserByAccessToken E (headers req !! "accesstoken") = inr (Some u)).
Proof.
  intros Hnone. unfold api_tickets.postComment.
  destruct (getUserByAccessToken E (headers req !! "accesstoken")) as [e|[u|]] eqn:Htok.
  - cbn. intros H. injection H as <-. left. repeat split. intros u Hu. discriminate Hu.
  - intros H. right. split; [|exists u; reflexivity].
    revert H. unfold mbind, M_bind, getTicketById, save.
    destruct (prop (body req) "comment") as [x|c]; cbn [lift throw mret M_ret world_of];
      [rewrite Hnone; intros H; discriminate H|].
    destruct (prop (body req) "ownerId") as [x|o]; cbn [lift throw mret M_ret world_of];
      [rewrite Hnone; intros H; discriminate H|].
    destruct (prop (body req) "_id") as [x|[i|]]; cbn [lift throw mret M_ret world_of];
      [rewrite Hnone; intros H; discriminate H| |intros H; injection H as <-; reflexivity].
    destruct (find_error E (Some (key E i))) as [x|];
      [intros H; injection H as <-; reflexivity|].
    destruct c as [c|]; [|intros H; injection H as <-; reflexivity].
    destruct c as [| | |s| |]; cbn [js_replace_linebreaks throw mret M_ret world_of];
      try (cbn; rewrite Hnone; intros H; discriminate H).
    destruct (Some (key E i) ≫= λ i0 : string, store w !! i0) as [t|];
      [|cbn; rewrite Hnone; intros H; discriminate H].
    destruct (save_error E _) as [x|]; [intros H; injection H as <-; reflexivity|].
    destruct (populate_error E _) as [x|]; cbn.
    + rewrite Hnone. intros H. discriminate H.
    + intros H. injection H as <-. reflexivity.
  - cbn. intros H. injection H as <-. left. repeat split. intros u Hu. discriminate Hu.
Qed.

(** X14: [postComment] answers with status 401 exactly when the access
    token is not that of a user.  A token whose lookup fails is answered
    with status 401 and the message of the error, a token of no user with
    status 401 and ['Unknown User'], in both cases before the body is read
    and before any store operation; and an answer [postComment] sends has
    status 401 only for such a token, and status 200 otherwise. *)
Theorem postComment_401_only_for_rejected_token
    (E : Env) (req : Request) (w : World) :
  response w = None ->
  (forall err,
     getUserByAccessToken E (headers req !! "accesstoken") = inl err ->
     api_tickets.postComment E req w =
       Ok tt (responded 401 (api_tickets.error_body (message err)) w)) /\
  (getUserByAccessToken E (headers req !! "accesstoken") = inr None ->
   api_tickets.postComment E req w =
     Ok tt (responded 401 (api_tickets.error_body "Unknown User") w)) /\
  (forall resp,
     response (world_of (api_tickets.postComment E req w)) = Some resp ->
     (code resp = 401 /\
      (forall u, getUserByAccessToken E (headers req !! "accesstoken") <> inr (Some u)) /\
      api_tickets.postComment E req w = Ok tt (responded 401 (payload resp) w)) \/
     (code resp = 200 /\
      exists u, getUserByAccessToken E (headers req !! "accesstoken") = inr (Some u))).
Proof.
  intros Hnone. split; [|split].
  - intros err Htok. unfold api_tickets.postComment. rewrite Htok. reflexivity.
  - intros Htok. unfold api_tickets.postComment. rewrite Htok. reflexivity.
  - intros resp. apply postComment_answer_status. exact Hnone.
Qed.

Lemma postComment_401_only_for_rejected_token_witness :
  api_tickets.postComment env_no_token req_comment world_open =
    Ok tt (responded 401 (api_tickets.error_body "Unknown User") world_open) /\
  ((code (mkResponse 200 (comment_body ticket_commented)) = 401 /\
    (forall u, getUserByAccessToken env0 (headers req_comment !! "accesstoken")
               <> inr (Some u)) /\
    api_tickets.postComment env0 req_comment world_open =
      Ok tt (responded 401 (payload (mkResponse 200 (comment_body ticket_commented)))
               world_open)) \/
   (code (mkResponse 200 (comment_body ticket_commented)) = 200 /\
    exists u, getUserByAccessToken env0 (headers req_comment !! "accesstoken")
              = inr (Some u))).
Proof.
  destruct (postComment_401_only_for_rejected_token env_no_token req_comment world_open
              eq_refl) as (_ & Hnone & _).
  destruct (postComment_401_only_for_rejected_token env0 req_comment world_open eq_refl)
    as (_ & _ & Hany).
  split.
  - apply Hnone. reflexivity.
  - apply Hany. vm_compute. reflexivity.
Defined.

(** ** Attachments, continued *)

Example attachment_file_ex :
  attachment_file env0 (Attachment.mk "a1" "uploads/a1.png") = "/public/uploads/a1.png" /\
  attachment_file env0 (Attachment.mk "a1" "/uploads/a1.png") = "/public/uploads/a1.png" /\
  attachment_file env0 (Attachment.mk "a1" "uploads/../../secret") = "/secret".
Proof. repeat split; vm_compute; reflexivity. Qed.

(** X15: when [removeAttachment] has found the ticket and the attachment
    and the removal of the record succeeds, the backing file, at the path
    joined from [__dirname], ['../../../../public'] and the path of the
    attachment, is unlinked before the ticket is saved.  When the file
    exists and cannot be unlinked, the run throws the error of the file
    system: no answer, the store as it was.  Otherwise the file is not on
    disk afterwards, whether the save succeeds or fails, and no other file
    is touched; when the save fails the answer is 401 and the store still
    holds the ticket with its attachment record. *)
Theorem removeAttachment_unlinks_before_save
    (E : Env) (req : Request) (w : World) (tid aid : string) (u : User)
    (t t1 : Ticket.t) (a : Attachment.t) :
  params req !! "tid" = Some tid ->
  params req !! "aid" = Some aid ->
  user req = UserDoc u ->
  canThis E (role u) "tickets:removeAttachment" = true ->
  find_error E (Some tid) = None ->
  store w !! tid = Some t ->
  getAttachment t aid = Some a ->
  Ticket_removeAttachment E t (user_id u) aid = inr t1 ->
  (forall code,
     attachment_file E a ∈ files w ->
     unlink_error E (attachment_file E a) = Some code ->
     api_tickets.removeAttachment E req w =
       Threw (SystemError code) (with_store (store w) (OpFind tid) w)) /\
  ((attachment_file E a ∉ files w) \/ unlink_error E (attachment_file E a) = None ->
   exists w',
     api_tickets.removeAttachment E req w = Ok tt w' /\
     (attachment_file E a ∉ files w') /\
     (forall x, x <> attachment_file E a -> (x ∈ files w' <-> x ∈ files w)) /\
     match save_error E t1 with
     | Some _ =>
         response w' = Some (mkResponse 401 (api_tickets.error_body "Invalid Request.")) /\
         store w' = store w
     | None =>
         response w' = Some (mkResponse 200 (Send (RTicket t1))) /\
         store w' = <[Ticket.id t1 := t1]> (store w)
     end).
Proof.
  intros Ht Ha Hu Hcan Hfind Hlook Hatt Hrem.
  unfold api_tickets.removeAttachment. rewrite Ht, Ha, Hu, Hcan. cbn [negb].
  unfold mbind, M_bind, getTicketById. rewrite Hfind. cbn [mbind option_bind].
  rewrite Hlook, Hrem, Hatt.
  unfold unlink_if_exists, save. cbn [files with_store].
  change (path_join [dirname E; "../../../../public"; Attachment.path a])
    with (attachment_file E a).
  set (dir := attachment_file E a).
  split.
  - intros code Hin Hcode.
    rewrite (bool_decide_eq_true_2 _ Hin), Hcode. reflexivity.
  - intros Hcase.
    destruct (bool_decide (dir ∈ files w)) eqn:Hd;
      [apply bool_decide_eq_true in Hd|apply bool_decide_eq_false in Hd].
    + destruct Hcase as [Hnin|Hnone]; [contradiction|]. rewrite Hnone.
      destruct (save_error E t1) as [e|]; eexists; (split; [reflexivity|]); cbn;
        (split; [|split; [intros x Hx|split; reflexivity]]);
        rewrite ?elem_of_difference, ?elem_of_singleton; tauto.
    + destruct (save_error E t1) as [e|]; eexists; (split; [reflexivity|]); cbn;
        (split; [|split; [intros x Hx|split; reflexivity]]); tauto.
Qed.

Lemma removeAttachment_unlinks_before_save_witness :
  attachment_file env_save_fails (Attachment.mk "a1" "/uploads/a1.png")
    = "/public/uploads/a1.png" /\
  (exists w',
     api_tickets.removeAttachment env_save_fails req_remove_alice world_slash = Ok tt w' /\
     (attachment_file env_save_fails (Attachment.mk "a1" "/uploads/a1.png") ∉ files w') /\
     (forall x, x <> attachment_file env_save_fails (Attachment.mk "a1" "/uploads/a1.png") ->
                (x ∈ files w' <-> x ∈ files world_slash)) /\
     match save_error env_save_fails ticket_slash_detached with
     | Some _ =>
         response w' = Some (mkResponse 401 (api_tickets.error_body "Invalid Request.")) /\
         store w' = store world_slash
     | None =>
         response w' = Some (mkResponse 200 (Send (RTicket ticket_slash_detached))) /\
         store w' =
           <[Ticket.id ticket_slash_detached := ticket_slash_detached]> (store world_slash)
     end) /\
  api_tickets.removeAttachment env_unlink_fails req_remove_alice world_slash =
    Threw (SystemError "EISDIR") (with_store (store world_slash) (OpFind "t1") world_slash).
Proof.
  assert (Hlook : store world_slash !! "t1" = Some ticket_slash)
    by (vm_compute; reflexivity).
  assert (Hparam : params req_remove_alice !! "tid" = Some "t1")
    by (vm_compute; reflexivity).
  assert (Hparam2 : params req_remove_alice !! "aid" = Some "a1")
    by (vm_compute; reflexivity).
  split; [vm_compute; reflexivity|]. split.
  - apply (removeAttachment_unlinks_before_save env_save_fails req_remove_alice world_slash
             "t1" "a1" alice ticket_slash ticket_slash_detached
             (Attachment.mk "a1" "/uploads/a1.png")
             Hparam Hparam2 eq_refl eq_refl eq_refl Hlook eq_refl eq_refl).
    right. reflexivity.
  - apply (removeAttachment_unlinks_before_save env_unlink_fails req_remove_alice world_slash
             "t1" "a1" alice ticket_slash ticket_slash_detached
             (Attachment.mk "a1" "/uploads/a1.png")
             Hparam Hparam2 eq_refl eq_refl eq_refl Hlook eq_refl eq_refl).
    + vm_compute. reflexivity.
    + reflexivity.
Defined.

(** ** Subscriptions, continued *)

(** X16: [subscribe] answers 400 ['Invalid Payload.'] exactly when the body
    is a value whose properties can be read and it lacks [user] or
    [subscribe] (a [subscribe] that is [null] or [false] is not lacking);
    that answer comes before any store operation. *)
Theorem subscribe_invalid_payload_iff (E : Env) (req : Request) (w : World) :
  response w = None ->
  (response (world_of (api_tickets.subscribe E req w)) = Some invalid_payload <->
   (exists j, body req = Some j /\ j <> JNull) /\
   (field (body req) "user" = None \/ field (body req) "subscribe" = None)) /\
  (response (world_of (api_tickets.subscribe E req w)) = Some invalid_payload ->
   api_tickets.subscribe E req w = Ok tt (responded 400 (payload invalid_payload) w)).
Proof.
  intros Hnone.
  assert (Hthrow : forall e : Exn,
             response (world_of (Threw (A := unit) e w)) <> Some invalid_payload).
  { intros e. cbn. rewrite Hnone. discriminate. }
  unfold api_tickets.subscribe, field.
  destruct (body req) as [j|].
  2:{ split; [split|].
      - intros H. exfalso. exact (Hthrow _ H).
      - intros [(j & Hj & _) _]. discriminate Hj.
      - intros H. exfalso. exact (Hthrow _ H). }
  assert (Hnull : j = JNull \/ j <> JNull)
    by (destruct j; (left; reflexivity) || (right; discriminate)).
  destruct Hnull as [->|Hj].
  { split; [split|].
    - intros H. exfalso. exact (Hthrow _ H).
    - intros [(j & Hj & Hne) _]. injection Hj as <-. congruence.
    - intros H. exfalso. exact (Hthrow _ H). }
  assert (Hprop : forall k, exists v, prop (Some j) k = inr v).
  { intros k. destruct j; try congruence; eexists; reflexivity. }
  destruct (Hprop "user") as [pu Hpu]. destruct (Hprop "subscribe") as [ps Hps].
  unfold mbind, M_bind. rewrite Hpu, Hps. cbn [lift mret M_ret].
  assert (Hbody : exists j0, Some j = Some j0 /\ j0 <> JNull) by (exists j; split; auto).
  destruct pu as [pu|]; [|split; [split|]; [intros _; split; [exact Hbody|left; reflexivity]|reflexivity|reflexivity]].
  destruct ps as [ps|]; [|split; [split|]; [intros _; split; [exact Hbody|right; reflexivity]|reflexivity|reflexivity]].
  match goal with |- context [world_of ?r] =>
    assert (Hno : response (world_of r) <> Some invalid_payload) end.
  2:{ split; [split|].
      - intros H. exfalso. exact (Hno H).
      - intros [_ [H|H]]; discriminate H.
      - intros H. exfalso. exact (Hno H). }
  unfold mbind, M_bind, getTicketById, save.
  destruct (find_error E (params req !! "id")); [cbn; discriminate|].
  destruct (params req !! "id" ≫= _); [|cbn; rewrite Hnone; discriminate].
  destruct (save_error E _); cbn; discriminate.
Qed.

Lemma subscribe_invalid_payload_iff_witness :
  response (world_of (api_tickets.subscribe env0 req_subscribe_no_flag world_open))
    = Some invalid_payload.
Proof.
  apply (subscribe_invalid_payload_iff env0 req_subscribe_no_flag world_open);
    [reflexivity|].
  split.
  - eexists. split; [reflexivity|]. discriminate.
  - right. vm_compute. reflexivity.
Defined.

(** ** Monthly counts *)

Section MonthSeries.
Context (S : StatsEnv).

Lemma forEachSeries_total_ok (count : Z -> Z) (l : list Z) :
  forall st : api_tickets_stats.MonthData,
    (forall m, m ∈ l -> getMonthCount S m (-1) = inr (count m)) ->
    forEachSeries (api_tickets_stats.total_iterator S) l st =
    (api_tickets_stats.mkMonthData
       (api_tickets_stats.newData st ++
          List.map (fun m => api_tickets_stats.point S m (count m)) l)
       (api_tickets_stats.closedData st)
       (api_tickets_stats.counted st ++ List.map (fun m => (m, -1)) l), None).
Proof.
  induction l as [|m l IH]; intros st Hall.
  - cbn. rewrite !app_nil_r. destruct st; reflexivity.
  - cbn [forEachSeries]. unfold api_tickets_stats.total_iterator at 1.
    rewrite (Hall m) by left.
    rewrite IH by (intros x Hx; apply Hall; right; exact Hx).
    cbn. rewrite <- !app_assoc. reflexivity.
Qed.

Lemma forEachSeries_closed_ok (count : Z -> Z) (l : list Z) :
  forall st : api_tickets_stats.MonthData,
    (forall m, m ∈ l -> getMonthCount S m 3 = inr (count m)) ->
    forEachSeries (api_tickets_stats.closed_iterator S) l st =
    (api_tickets_stats.mkMonthData
       (api_tickets_stats.newData st)
       (api_tickets_stats.closedData st ++
          List.map (fun m => api_tickets_stats.point S m (count m)) l)
       (api_tickets_stats.counted st ++ List.map (fun m => (m, 3)) l), None).
Proof.
  induction l as [|m l IH]; intros st Hall.
  - cbn. rewrite !app_nil_r. destruct st; reflexivity.
  - cbn [forEachSeries]. unfold api_tickets_stats.closed_iterator at 1.
    rewrite (Hall m) by left.
    rewrite IH by (intros x Hx; apply Hall; right; exact Hx).
    cbn. rewrite <- !app_assoc. reflexivity.
Qed.

Lemma forEachSeries_total_fails (count : Z -> Z) (l1 l2 : list Z) (k : Z) (err : Err) :
  forall st : api_tickets_stats.MonthData,
    (forall m, m ∈ l1 -> getMonthCount S m (-1) = inr (count m)) ->
    getMonthCount S k (-1) = inl err ->
    forEachSeries (api_tickets_stats.total_iterator S) (l1 ++ k :: l2) st =
    (api_tickets_stats.mkMonthData
       (api_tickets_stats.newData st ++
          List.map (fun m => api_tickets_stats.point S m (count m)) l1)
       (api_tickets_stats.closedData st)
       (api_tickets_stats.counted st ++ List.map (fun m => (m, -1)) (l1 ++ [k])),
     Some err).
Proof.
  induction l1 as [|m l1 IH]; intros st Hall Hk.
  - cbn. unfold api_tickets_stats.total_iterator. rewrite Hk, app_nil_r. reflexivity.
  - cbn [forEachSeries app]. unfold api_tickets_stats.total_iterator at 1.
    rewrite (Hall m) by left.
    rewrite IH by (try (intros x Hx; apply Hall; right); assumption).
    cbn. rewrite <- !app_assoc. reflexivity.
Qed.

Lemma forEachSeries_closed_fails (count : Z -> Z) (l1 l2 : list Z) (k : Z) (err : Err) :
  forall st : api_tickets_stats.MonthData,
    (forall m, m ∈ l1 -> getMonthCount S m 3 = inr (count m)) ->
    getMonthCount S k 3 = inl err ->
    forEachSeries (api_tickets_stats.closed_iterator S) (l1 ++ k :: l2) st =
    (api_tickets_stats.mkMonthData
       (api_tickets_stats.newData st)
       (api_tickets_stats.closedData st ++
          List.map (fun m => api_tickets_stats.point S m (count m)) l1)
       (api_tickets_stats.counted st ++ List.map (fun m => (m, 3)) (l1 ++ [k])),
     Some err).
Proof.
  induction l1 as [|m l1 IH]; intros st Hall Hk.
  - cbn. unfold api_tickets_stats.closed_iterator. rewrite Hk, app_nil_r. reflexivity.
  - cbn [forEachSeries app]. unfold api_tickets_stats.closed_iterator at 1.
    rewrite (Hall m) by left.
    rewrite IH by (try (intros x Hx; apply Hall; right); assumption).
    cbn. rewrite <- !app_assoc. reflexivity.
Qed.

End MonthSeries.

Lemma elem_of_dates (m : Z) : m ∈ api_tickets_stats.dates <-> 0 <= m < 12.
Proof.
  unfold api_tickets_stats.dates. rewrite !elem_of_cons, elem_of_nil. lia.
Qed.

Lemma dates_split (k : Z) :
  0 <= k < 12 ->
  api_tickets_stats.dates =
    (List.filter (fun m => m <? k) api_tickets_stats.dates ++
     k :: List.filter (fun m => k <? m) api_tickets_stats.dates)%list /\
  (List.filter (fun m => m <=? k) api_tickets_stats.dates =
   List.filter (fun m => m <? k) api_tickets_stats.dates ++ [k])%list.
Proof.
  intros Hk.
  assert (H : k = 0 \/ k = 1 \/ k = 2 \/ k = 3 \/ k = 4 \/ k = 5 \/ k = 6 \/
              k = 7 \/ k = 8 \/ k = 9 \/ k = 10 \/ k = 11) by lia.
  repeat (destruct H as [-> | H]); try subst k; split; reflexivity.
Qed.

Lemma elem_of_dates_below (k m : Z) :
  m ∈ List.filter (fun m => m <? k) api_tickets_stats.dates -> 0 <= m < k.
Proof.
  intros H. apply list_elem_of_In, filter_In in H as [Hin Hlt].
  apply list_elem_of_In, elem_of_dates in Hin. lia.
Qed.

(** X17: when the 24 counts succeed, [getMonthData] answers with status 200
    and the two series ['New'] and ['Closed'], each with one point for each
    of the months 0 to 11, in that order, the point of a month being the
    time at which the month starts in the current year and the count; the
    counts are made one after the other, the twelve of all tickets (status
    -1) before the twelve of the closed ones (status 3). *)
Theorem getMonthData_all_counts (S : StatsEnv) (req : Request) (w : World)
    (total closed : Z -> Z) :
  (forall m, 0 <= m < 12 -> getMonthCount S m (-1) = inr (total m)) ->
  (forall m, 0 <= m < 12 -> getMonthCount S m 3 = inr (closed m)) ->
  api_tickets_stats.getMonthData S req w =
    Ok tt (responded 200
             (Send (RJson (JArr
                [api_tickets_stats.series_json
                   (List.map (fun m => api_tickets_stats.point S m (total m))
                             api_tickets_stats.dates) "New";
                 api_tickets_stats.series_json
                   (List.map (fun m => api_tickets_stats.point S m (closed m))
                             api_tickets_stats.dates) "Closed"]))) w) /\
  api_tickets_stats.counted (fst (api_tickets_stats.month_series S)) =
    (List.map (fun m => (m, -1)) api_tickets_stats.dates ++
     List.map (fun m => (m, 3)) api_tickets_stats.dates)%list.
Proof.
  intros Ht Hc.
  assert (Hs : api_tickets_stats.month_series S =
               (api_tickets_stats.mkMonthData
                  (List.map (fun m => api_tickets_stats.point S m (total m))
                            api_tickets_stats.dates)
                  (List.map (fun m => api_tickets_stats.point S m (closed m))
                            api_tickets_stats.dates)
                  (List.map (fun m => (m, -1)) api_tickets_stats.dates ++
                   List.map (fun m => (m, 3)) api_tickets_stats.dates), None)).
  { unfold api_tickets_stats.month_series.
    rewrite (forEachSeries_total_ok S total)
      by (intros m Hm; apply Ht, elem_of_dates, Hm).
    rewrite (forEachSeries_closed_ok S closed)
      by (intros m Hm; apply Hc, elem_of_dates, Hm).
    reflexivity. }
  unfold api_tickets_stats.getMonthData. rewrite Hs. split; reflexivity.
Qed.

Lemma getMonthData_all_counts_witness :
  api_tickets_stats.getMonthData stats0 req_single_no_uid world0 =
    Ok tt (responded 200
             (Send (RJson (JArr
                [api_tickets_stats.series_json
                   (List.map (fun m => api_tickets_stats.point stats0 m (10 * m))
                             api_tickets_stats.dates) "New";
                 api_tickets_stats.series_json
                   (List.map (fun m => api_tickets_stats.point stats0 m (10 * m + 4))
                             api_tickets_stats.dates) "Closed"]))) world0) /\
  api_tickets_stats.counted (fst (api_tickets_stats.month_series stats0)) =
    (List.map (fun m => (m, -1)) api_tickets_stats.dates ++
     List.map (fun m => (m, 3)) api_tickets_stats.dates)%list.
Proof.
  apply (getMonthData_all_counts stats0 req_single_no_uid world0
           (fun m => 10 * m) (fun m => 10 * m + 4)).
  - intros m _. cbn. f_equal. lia.
  - intros m _. cbn. f_equal. lia.
Defined.

(** X18: when the count of all tickets of month [k] is the first count to
    fail, [getMonthData] answers with status 400 and that error, exactly
    the months 0 to [k] have been counted, and no closed ticket has been
    counted. *)
Theorem getMonthData_total_count_fails (S : StatsEnv) (req : Request) (w : World)
    (total : Z -> Z) (k : Z) (err : Err) :
  0 <= k < 12 ->
  (forall m, 0 <= m < k -> getMonthCount S m (-1) = inr (total m)) ->
  getMonthCount S k (-1) = inl err ->
  api_tickets_stats.getMonthData S req w = Ok tt (responded 400 (Send (RErr err)) w) /\
  api_tickets_stats.counted (fst (api_tickets_stats.month_series S)) =
    List.map (fun m => (m, -1)) (List.filter (fun m => m <=? k) api_tickets_stats.dates).
Proof.
  intros Hk Ht Herr.
  destruct (dates_split k Hk) as [Hsplit Hle].
  assert (Hs : api_tickets_stats.month_series S =
               (api_tickets_stats.mkMonthData
                  (List.map (fun m => api_tickets_stats.point S m (total m))
                            (List.filter (fun m => m <? k) api_tickets_stats.dates))
                  []
                  (List.map (fun m => (m, -1))
                            (List.filter (fun m => m <=? k) api_tickets_stats.dates)),
                Some err)).
  { unfold api_tickets_stats.month_series. rewrite Hsplit at 1.
    rewrite (forEachSeries_total_fails S total _ _ k err)
      by (try (intros m Hm; apply Ht; eapply elem_of_dates_below; exact Hm); assumption).
    rewrite Hle. reflexivity. }
  unfold api_tickets_stats.getMonthData. rewrite Hs. split; reflexivity.
Qed.

Lemma getMonthData_total_count_fails_witness :
  api_tickets_stats.getMonthData stats_march_total_fails req_single_no_uid world0 =
    Ok tt (responded 400 (Send (RErr (mkErr "count failed"))) world0) /\
  api_tickets_stats.counted (fst (api_tickets_stats.month_series stats_march_total_fails)) =
    List.map (fun m => (m, -1)) (List.filter (fun m => m <=? 2) api_tickets_stats.dates).
Proof.
  apply (getMonthData_total_count_fails stats_march_total_fails req_single_no_uid world0
           (fun m => 10 * m) 2 (mkErr "count failed")).
  - lia.
  - intros m Hm. cbn. replace (m =? 2) with false by lia. cbn. f_equal. lia.
  - reflexivity.
Defined.

(** X19: when the twelve counts of all tickets succeed and the count of the
    closed tickets of month [k] is the first to fail, [getMonthData]
    answers with status 400 and that error: the series ['New'], although
    complete, is not sent; the closed tickets of the months 0 to [k] have
    been counted after the twelve counts of all tickets. *)
Theorem getMonthData_closed_count_fails (S : StatsEnv) (req : Request) (w : World)
    (total closed : Z -> Z) (k : Z) (err : Err) :
  0 <= k < 12 ->
  (forall m, 0 <= m < 12 -> getMonthCount S m (-1) = inr (total m)) ->
  (forall m, 0 <= m < k -> getMonthCount S m 3 = inr (closed m)) ->
  getMonthCount S k 3 = inl err ->
  api_tickets_stats.getMonthData S req w = Ok tt (responded 400 (Send (RErr err)) w) /\
  api_tickets_stats.counted (fst (api_tickets_stats.month_series S)) =
    (List.map (fun m => (m, -1)) api_tickets_stats.dates ++
     List.map (fun m => (m, 3))
              (List.filter (fun m => m <=? k) api_tickets_stats.dates))%list.
Proof.
  intros Hk Ht Hc Herr.
  destruct (dates_split k Hk) as [Hsplit Hle].
  assert (Hs : exists st,
             api_tickets_stats.month_series S = (st, Some err) /\
             api_tickets_stats.counted st =
               (List.map (fun m => (m, -1)) api_tickets_stats.dates ++
                List.map (fun m => (m, 3))
                  (List.filter (fun m => m <=? k) api_tickets_stats.dates))%list).
  { unfold api_tickets_stats.month_series.
    rewrite (forEachSeries_total_ok S total)
      by (intros m Hm; apply Ht, elem_of_dates, Hm).
    replace (forEachSeries (api_tickets_stats.closed_iterator S) api_tickets_stats.dates)
      with (forEachSeries (api_tickets_stats.closed_iterator S)
              (List.filter (fun m => m <? k) api_tickets_stats.dates ++
               k :: List.filter (fun m => k <? m) api_tickets_stats.dates))
      by (f_equal; symmetry; exact Hsplit).
    rewrite (forEachSeries_closed_fails S closed _ _ k err)
      by (try (intros m Hm; apply Hc; eapply elem_of_dates_below; exact Hm); assumption).
    rewrite Hle. eexists. split; reflexivity. }
  destruct Hs as (st & Hs & Hcounted).
  unfold api_tickets_stats.getMonthData. rewrite Hs. split; [reflexivity|exact Hcounted].
Qed.

Lemma getMonthData_closed_count_fails_witness :
  api_tickets_stats.getMonthData stats_march_fails req_single_no_uid world0 =
    Ok tt (responded 400 (Send (RErr (mkErr "count failed"))) world0) /\
  api_tickets_stats.counted (fst (api_tickets_stats.month_series stats_march_fails)) =
    (List.map (fun m => (m, -1)) api_tickets_stats.dates ++
     List.map (fun m => (m, 3))
              (List.filter (fun m => m <=? 2) api_tickets_stats.dates))%list.
Proof.
  apply (getMonthData_closed_count_fails stats_march_fails req_single_no_uid world0
           (fun m => 10 * m) (fun m => 10 * m + 4) 2 (mkErr "count failed")).
  - lia.
  - intros m _. cbn. rewrite andb_false_r. f_equal. lia.
  - intros m Hm. cbn. replace (m =? 2) with false by lia. cbn. f_equal. lia.
  - reflexivity.
Defined.

(** ** Creation, continued *)

(** X20: on an object body, [create] without a user on the request
    ([undefined] or [null]) sends no answer: it throws the [TypeError] of
    reading [_id], whatever the payload, and the world is as it was. *)
Theorem create_without_user_throws (E : Env) (req : Request) (w : World) :
  isObject (body req) = true ->
  user req = UserUndefined \/ user req = UserNull ->
  exists what,
    api_tickets.create E req w =
      Threw (TypeError ("Cannot read property '_id' of " ++ what)) w /\
    (what = "undefined" \/ what = "null").
Proof.
  intros Hobj Hu.
  assert (Hprop : forall k, exists v, prop (body req) k = inr v).
  { intros k. destruct (body req) as [[| | | | |]|]; cbn in Hobj; try discriminate Hobj;
      eexists; reflexivity. }
  unfold api_tickets.create. rewrite Hobj. cbn [negb].
  destruct (Hprop "socketId") as [sid Hsid].
  destruct (Hprop "tags") as [ptags Htags].
  unfold mbind, M_bind. rewrite Hsid, Htags. cbn [lift mret M_ret].
  destruct Hu as [-> | ->]; cbn [user_prop throw].
  - exists "undefined". split; [reflexivity|left; reflexivity].
  - exists "null". split; [reflexivity|right; reflexivity].
Qed.

Lemma create_without_user_throws_witness :
  exists what,
    api_tickets.create env0 req_create_anonymous world0 =
      Threw (TypeError ("Cannot read property '_id' of " ++ what)) world0 /\
    (what = "undefined" \/ what = "null").
Proof.
  apply (create_without_user_throws env0 req_create_anonymous world0).
  - reflexivity.
  - left. reflexivity.
Defined.

(** X21: the issue of a ticket stored by [create] is the rendering by
    [marked] of a text without carriage return or line feed: the issue of
    the constructed document with every line break replaced by [<br>]; for
    a payload whose [issue] is a string, that is the payload's issue. *)
Theorem create_issue_rendered_without_linebreaks
    (E : Env) (req : Request) (w w' : World) (t : Ticket.t) :
  api_tickets.create E req w = Ok tt w' ->
  response w' = Some (mkResponse 200 (created_body t)) ->
  exists s0 : string,
    Ticket.issue (ticketModel E (body req)) = Some (JStr s0) /\
    Ticket.issue t = Some (JStr (marked E (replace_linebreaks s0))) /\
    has_linebreak (replace_linebreaks s0) = false /\
    (forall s, field (body req) "issue" = Some (JStr s) -> s0 = s).
Proof.
  intros Hrun Hresp.
  destruct (create_success_inv E req w w' t Hrun Hresp)
    as (u & s0 & ptags & _ & _ & _ & Hissue & _ & Ht & _).
  exists s0. split; [exact Hissue|]. split; [rewrite Ht; reflexivity|].
  split; [apply (replace_linebreaks_bounded (String.length s0)); lia|].
  intros s Hs. cbn [ticketModel Ticket.issue] in Hissue. rewrite Hs in Hissue.
  injection Hissue as ->. reflexivity.
Qed.

Lemma create_issue_rendered_without_linebreaks_witness :
  exists s0 : string,
    Ticket.issue (ticketModel env0 (body req_create_two_lines)) = Some (JStr s0) /\
    Ticket.issue ticket_two_lines = Some (JStr (marked env0 (replace_linebreaks s0))) /\
    has_linebreak (replace_linebreaks s0) = false /\
    (forall s, field (body req_create_two_lines) "issue" = Some (JStr s) -> s0 = s).
Proof.
  apply (create_issue_rendered_without_linebreaks env0 req_create_two_lines world0
           world_two_lines ticket_two_lines).
  - vm_compute. reflexivity.
  - reflexivity.
Defined.
